(** * Jensen3D: the cosine wake kernel of [JensenOpenMDAOconnect.py]

    A shallow embedding of [get_cosine_factor_original], of the
    [solve_nonlinear] methods of [JensenCosine] and [JensenCosineFortran],
    of [add_jensen_params_IndepVarComps] and of the variant dispatch in
    [Jensen.__init__].

    Numbers.  The program computes on numpy [float64] values.  They are
    modelled by [float64] below: a real number, or one of the three IEEE
    special values.  Rounding, overflow, underflow and the sign of zero
    are left out (arithmetic on finite values is exact, and zero is read
    as [+0.0]); what is kept is what numpy does where real arithmetic has
    no answer: a division by zero yields an infinity or NaN instead of
    raising, comparisons with NaN are false, [arctan] of an infinity is
    [±π/2].  The one division whose operands can both be plain Python
    floats, [np.pi/bound_angle], raises [ZeroDivisionError] on a zero
    divisor.

    Statements are kept to what the float64 evaluation shares with this
    model: which expression a cell holds, comparisons that rounding
    preserves, and values at magnitudes where float64 neither overflows
    nor underflows (see [tiny] and [large]).  What the program does beyond
    those magnitudes is replayed in the module [F64], which computes with
    the binary64 operations themselves.

    Exceptions.  They are threaded through the [result] monad:
    [IndexError] for an array index out of range, [ZeroDivisionError] as
    above, [KeyError] and [TypeError] for the options dictionary. *)

From Stdlib Require Import Reals Lra.
From Stdlib Require PrimFloat.
From stdpp Require Import base list strings gmap.


(** ** numpy float64, idealised *)

Inductive float64 : Type :=
| Fin (x : R)
| PInf
| NInf
| NaN.

Module NP.

(** The infinity carrying the sign of [x]; NaN when [x] is zero
    (the value of [x * inf], and of [x / 0] for a finite [x]). *)
Definition signed_inf (x : R) : float64 :=
  if Rlt_dec 0 x then PInf else if Rlt_dec x 0 then NInf else NaN.

Definition neg (a : float64) : float64 :=
  match a with
  | Fin x => Fin (- x)
  | PInf => NInf
  | NInf => PInf
  | NaN => NaN
  end.

Definition add (a b : float64) : float64 :=
  match a, b with
  | NaN, _ | _, NaN => NaN
  | Fin x, Fin y => Fin (x + y)
  | PInf, NInf | NInf, PInf => NaN
  | PInf, _ | _, PInf => PInf
  | NInf, _ | _, NInf => NInf
  end.

Definition sub (a b : float64) : float64 := add a (neg b).

Definition mul (a b : float64) : float64 :=
  match a, b with
  | NaN, _ | _, NaN => NaN
  | Fin x, Fin y => Fin (x * y)
  | Fin x, PInf | PInf, Fin x => signed_inf x
  | Fin x, NInf | NInf, Fin x => signed_inf (- x)
  | PInf, PInf | NInf, NInf => PInf
  | PInf, NInf | NInf, PInf => NInf
  end.

(** numpy's true division: never raises (it warns), and a zero divisor
    gives an infinity, or NaN for [0/0]. *)
Definition div (a b : float64) : float64 :=
  match a, b with
  | NaN, _ | _, NaN => NaN
  | Fin x, Fin y => if Req_dec_T y 0 then signed_inf x else Fin (x / y)
  | Fin _, PInf | Fin _, NInf => Fin 0
  | PInf, Fin y => if Rlt_dec y 0 then NInf else PInf
  | NInf, Fin y => if Rlt_dec y 0 then PInf else NInf
  | PInf, _ | NInf, _ => NaN
  end.

(** [a < b]; false as soon as one side is NaN. *)
Definition ltb (a b : float64) : bool :=
  match a, b with
  | NaN, _ | _, NaN => false
  | Fin x, Fin y => if Rlt_dec x y then true else false
  | _, NInf | PInf, _ => false
  | NInf, _ | _, PInf => true
  end.

(** [a <= b] *)
Definition leb (a b : float64) : bool :=
  match a, b with
  | NaN, _ | _, NaN => false
  | Fin x, Fin y => if Rle_dec x y then true else false
  | NInf, _ | _, PInf => true
  | _, NInf | PInf, _ => false
  end.

Definition abs (a : float64) : float64 :=
  match a with
  | Fin x => Fin (Rabs x)
  | PInf | NInf => PInf
  | NaN => NaN
  end.

Definition sin (a : float64) : float64 :=
  match a with Fin x => Fin (Rtrigo_def.sin x) | _ => NaN end.

Definition cos (a : float64) : float64 :=
  match a with Fin x => Fin (Rtrigo_def.cos x) | _ => NaN end.

Definition arctan (a : float64) : float64 :=
  match a with
  | Fin x => Fin (atan x)
  | PInf => Fin (PI / 2)
  | NInf => Fin (- (PI / 2))
  | NaN => NaN
  end.

Definition sqrt (a : float64) : float64 :=
  match a with
  | Fin x => if Rlt_dec x 0 then NaN else Fin (R_sqrt.sqrt x)
  | PInf => PInf
  | NInf | NaN => NaN
  end.

(** [a ** 2] *)
Definition square (a : float64) : float64 := mul a a.

Definition pi : float64 := Fin PI.

(** [np.sum] of a one-dimensional array. *)
Definition sum (l : list float64) : float64 := foldl add (Fin 0) l.

(** [np.zeros(n)] and [np.zeros((n, m))] *)
Definition zeros (n : nat) : list float64 := replicate n (Fin 0).
Definition zeros2 (n m : nat) : list (list float64) := replicate n (zeros m).

End NP.

Declare Scope np_scope.
Delimit Scope np_scope with np.
Bind Scope np_scope with float64.
Infix "+" := NP.add : np_scope.
Infix "-" := NP.sub : np_scope.
Infix "*" := NP.mul : np_scope.
Infix "/" := NP.div : np_scope.
Infix "<?" := NP.ltb : np_scope.
Infix "<=?" := NP.leb : np_scope.
Notation "- x" := (NP.neg x) : np_scope.

Global Instance float64_inhabited : Inhabited float64 := populate (Fin 0).

(** ** Exceptions *)

Inductive exn : Type :=
| IndexError
| KeyError
| TypeError
| ZeroDivisionError.

Inductive result (A : Type) : Type :=
| Ok (a : A)
| Raise (e : exn).
Arguments Ok {A} a.
Arguments Raise {A} e.

Definition rbind {A B} (c : result A) (k : A -> result B) : result B :=
  match c with
  | Ok a => k a
  | Raise e => Raise e
  end.

Global Instance result_bind : MBind result :=
  fun A B k c => rbind c k.
Global Instance result_ret : MRet result := @Ok.

(** [try: c  except: h] with a bare [except]. *)
Definition try_except {A} (c : result A) (h : result A) : result A :=
  match c with
  | Ok a => Ok a
  | Raise _ => h
  end.

(** [l[i]] and [l[i] = v] on an array, for a non-negative index. *)
Definition getitem {A} (l : list A) (i : nat) : result A :=
  match l !! i with
  | Some a => Ok a
  | None => Raise IndexError
  end.

Definition setitem {A} (l : list A) (i : nat) (v : A) : result (list A) :=
  if decide (i < length l) then Ok (<[i:=v]> l) else Raise IndexError.

(** [m[i][j] = v] on a two-dimensional array. *)
Definition setitem2 {A} (m : list (list A)) (i j : nat) (v : A)
  : result (list (list A)) :=
  row ← getitem m i;
  row' ← setitem row j v;
  setitem m i row'.

(** [for i in l: s = body(i, s)], and [for i in range(n)]. *)
Fixpoint for_in {St} (l : list nat) (body : nat -> St -> result St) (s : St)
  : result St :=
  match l with
  | [] => Ok s
  | i :: l' => s' ← body i s; for_in l' body s'
  end.

Definition for_range {St} (n : nat) (body : nat -> St -> result St) (s : St)
  : result St :=
  for_in (seq 0 n) body s.

(** ** Scalars

    A scalar argument is a plain Python [float] or a [numpy.float64] (what
    indexing an array, a numpy function or the parameter vector of a
    component returns).  The two differ in one operation of this code:
    dividing by a zero Python float raises [ZeroDivisionError], while
    numpy's division returns an infinity or NaN. *)
Inductive scalar : Type :=
| PyFloat (x : float64)
| NpFloat (x : float64).

Definition scalar_value (s : scalar) : float64 :=
  match s with
  | PyFloat x | NpFloat x => x
  end.

(** An arithmetic operation with Python floats keeps the kind of [s]. *)
Definition scalar_map (f : float64 -> float64) (s : scalar) : scalar :=
  match s with
  | PyFloat x => PyFloat (f x)
  | NpFloat x => NpFloat (f x)
  end.

(** [np.pi/s] *)
Definition pi_over (s : scalar) : result float64 :=
  match s with
  | PyFloat (Fin x) =>
      if Req_dec_T x 0 then Raise ZeroDivisionError
      else Ok (NP.pi / Fin x)%np
  | PyFloat x | NpFloat x => Ok (NP.pi / x)%np
  end.

(** ** The cosine factor *)

Definition get_cosine_factor_original
    (X Y : list float64) (R0 : float64) (bound_angle : scalar)
    (relaxationFactor : float64)
  : result (list (list float64)) :=
  let n := length X in
  let bound_angle := scalar_map (fun b => b * NP.pi / Fin 180)%np bound_angle in
  let f_theta := NP.zeros2 n n in
  q ← pi_over bound_angle;
  let bound_angle := scalar_value bound_angle in
  let gamma := (NP.pi / Fin 2 - bound_angle)%np in
  for_range n (fun i f_theta =>
    for_range n (fun j f_theta =>
      Xi ← getitem X i;
      Xj ← getitem X j;
      if (Xi <? Xj)%np then
        let z := (relaxationFactor * R0 * NP.sin gamma
                  / NP.sin bound_angle)%np in
        Yj ← getitem Y j;
        Yi ← getitem Y i;
        Xj ← getitem X j;
        Xi ← getitem X i;
        let theta := NP.arctan ((Yj - Yi) / (Xj - Xi + z))%np in
        if ((- bound_angle <? theta) && (theta <? bound_angle))%np then
          setitem2 f_theta i j ((Fin 1 + NP.cos (q * theta)) / Fin 2)%np
        else Ok f_theta
      else Ok f_theta) f_theta) f_theta.

(** ** Components *)

(** Values found in a [model_options] dictionary. *)
Inductive pyval : Type :=
| PyStr (s : string)
| PyNum (x : float64).

(** [None], or a dictionary. *)
Definition options : Type := option (gmap string pyval).

(** [o[k]]: [TypeError] on [None], [KeyError] on a missing key. *)
Definition subscript (o : options) (k : string) : result pyval :=
  match o with
  | None => Raise TypeError
  | Some d =>
      match d !! k with
      | Some v => Ok v
      | None => Raise KeyError
      end
  end.

(** [v is 'lit'] for a string literal.  Identical objects are equal
    strings, so the test is false whenever the contents differ.  For equal
    contents the model answers true, as CPython does for the literals of
    a script, which are interned; a string of the same spelling built at
    run time is another object, for which the program's test is false.
    The theorems on the dispatch therefore argue from a test that failed,
    or from a branch that ran, to the spelling, and never from the
    spelling to the branch. *)
Definition py_is (v : pyval) (lit : string) : bool :=
  match v with
  | PyStr s => bool_decide (s = lit)
  | PyNum _ => false
  end.

(** [x * v] for a numpy scalar [x]: a string operand is a [TypeError]. *)
Definition mul_pyval (x : float64) (v : pyval) : result float64 :=
  match v with
  | PyNum y => Ok (x * y)%np
  | PyStr _ => Raise TypeError
  end.

(** The [params] dictionary of the two cosine components. *)
Record params : Type := {
  turbineXw : list float64;
  turbineYw : list float64;
  turbineZ : list float64;
  rotorDiameter : list float64;
  model_params_alpha : float64;
  model_params_spread_angle : scalar;
  axialInduction : list float64;
  wind_speed : float64;
  model_params_relaxationFactor : float64
}.

(** The attributes [__init__] stores; [JensenCosine] and
    [JensenCosineFortran] store the same ones. *)
Record cosine_component : Type := {
  nTurbines : nat;
  direction_id : nat;
  radius_multiplier : pyval
}.

Definition cosine_component_init (nTurbines direction_id : nat) (o : options)
  : cosine_component :=
  {| nTurbines := nTurbines;
     direction_id := direction_id;
     radius_multiplier :=
       match try_except (subscript o "radius multiplier")
                        (Ok (PyNum (Fin 1))) with
       | Ok v => v
       | Raise _ => PyNum (Fin 1)
       end |}.

Module JensenCosine.

Definition __init__ := cosine_component_init.

(** The state of the two loops: the scratch array [loss] and the
    output array [hubVelocity]. *)
Definition solve_nonlinear (self : cosine_component) (p : params)
  : result (list float64) :=
  let turbineXw := turbineXw p in
  let turbineYw := turbineYw p in
  let r := (fun d => Fin 0.5 * d)%np <$> rotorDiameter p in
  let alpha := model_params_alpha p in
  let bound_angle := model_params_spread_angle p in
  let a := axialInduction p in
  let windSpeed := wind_speed p in
  let nTurbines := nTurbines self in
  let loss := NP.zeros nTurbines in
  let hubVelocity := NP.zeros nTurbines in
  let relaxationFactor := model_params_relaxationFactor p in
  r0 ← getitem r 0;
  R0 ← mul_pyval r0 (radius_multiplier self);
  f_theta ← get_cosine_factor_original turbineXw turbineYw R0
               bound_angle relaxationFactor;
  st ← for_range nTurbines (fun i '(loss, hubVelocity) =>
    let loss := (fun _ => Fin 0) <$> loss in
    loss ← for_range nTurbines (fun j loss =>
      Xi ← getitem turbineXw i;
      Xj ← getitem turbineXw j;
      let dx := (Xi - Xj)%np in
      if (Fin 0 <? dx)%np then
        aj ← getitem a j;
        row ← getitem f_theta j;
        fji ← getitem row i;
        rj ← getitem r j;
        rj' ← getitem r j;
        loss ← setitem loss j
                  (Fin 2 * aj
                   * NP.square (fji * rj / (rj' + alpha * dx)))%np;
        lj ← getitem loss j;
        setitem loss j (NP.square lj)
      else Ok loss) loss;
    let totalLoss := NP.sqrt (NP.sum loss) in
    hubVelocity ← setitem hubVelocity i
                     ((Fin 1 - totalLoss) * windSpeed)%np;
    Ok (loss, hubVelocity)) (loss, hubVelocity);
  Ok st.2.

End JensenCosine.

Module JensenCosineFortran.

Definition __init__ := cosine_component_init.

(** [_jensen2.jensenwake] is a compiled extension module whose source is
    not part of the Python file.  [solve_nonlinear] takes it as a
    parameter: any function of the four arrays and scalars it is called
    with, returning the array [loss] or raising. *)
Definition native_kernel : Type :=
  list float64 -> list float64 -> list float64 -> float64 ->
  result (list float64).

Definition solve_nonlinear (jensenwake : native_kernel)
    (self : cosine_component) (p : params) : result (list float64) :=
  let turbineXw := turbineXw p in
  let turbineYw := turbineYw p in
  let rotorDiameter := rotorDiameter p in
  let r := (fun d => Fin 0.5 * d)%np <$> rotorDiameter in
  let bound_angle := model_params_spread_angle p in
  let windSpeed := wind_speed p in
  let relaxationFactor := model_params_relaxationFactor p in
  r0 ← getitem r 0;
  R0 ← mul_pyval r0 (radius_multiplier self);
  f_theta ← get_cosine_factor_original turbineXw turbineYw R0
               bound_angle relaxationFactor;
  loss ← (jensenwake turbineXw turbineYw rotorDiameter relaxationFactor
          : result (list float64));
  let hubVelocity :=
    (fun l => (Fin 1 - l) * windSpeed)%np <$> (loss : list float64) in
  Ok hubVelocity.

End JensenCosineFortran.

(** ** The selector group *)

(** The components [Jensen.__init__] can add.  The last four classes come
    from [JensenOpenMDAOconnect_extension], which is not part of this
    file: only their constructor arguments are recorded, and the import
    and the constructor are taken to return.  Nothing is concluded below
    from their returning (see [extension_tags]). *)
Inductive component : Type :=
| JensenTopHat (nTurbines direction_id : nat)
| JensenCosine (c : cosine_component)
| JensenCosineFortran (c : cosine_component)
| effectiveVelocityCosineNoOverlap (nTurbines direction_id : nat) (o : options)
| effectiveVelocityConference (nTurbines direction_id : nat)
| JensenCosineYaw (nTurbines direction_id : nat) (o : options)
| JensenCosineYawIntegral (nTurbines direction_id : nat) (o : options).

(** A group: the components added so far, by name. *)
Definition group : Type := list (string * component).

Module Jensen.

(** [model_options['variant'] is lit] *)
Definition variant_is (model_options : options) (lit : string)
  : result bool :=
  v ← subscript model_options "variant";
  Ok (py_is v lit).

(** [c1 or c2], evaluated left to right. *)
Definition or_else (c1 c2 : result bool) : result bool :=
  b ← c1; if b : bool then Ok true else c2.

Definition __init__ (nTurbs direction_id : nat) (model_options : options)
  : result group :=
  let self : group := [] in
  model_options ←
    try_except (_ ← subscript model_options "variant"; Ok model_options)
               (Ok (Some {[ "variant" := PyStr "Tophat" ]}));
  let add name c := Ok (self ++ [(name, c)]) in
  b ← variant_is model_options "TopHat";
  if b : bool then add "f_1" (JensenTopHat nTurbs direction_id) else
  b ← variant_is model_options "Cosine";
  if b : bool then
    add "f_1" (JensenCosine
                 (JensenCosine.__init__ nTurbs direction_id model_options))
  else
  b ← variant_is model_options "CosineFortran";
  if b : bool then
    add "f_1" (JensenCosineFortran
                 (JensenCosineFortran.__init__ nTurbs direction_id
                    model_options))
  else
  b ← or_else (variant_is model_options "CosineNoOverlap_1R")
              (variant_is model_options "CosineNoOverlap_2R");
  if b : bool then
    add "f_1" (effectiveVelocityCosineNoOverlap nTurbs direction_id
                 model_options)
  else
  b ← variant_is model_options "Conference";
  if b : bool then
    add "f_1" (effectiveVelocityConference nTurbs direction_id)
  else
  b ← or_else (variant_is model_options "CosineYaw_1R")
              (variant_is model_options "CosineYaw_2R");
  if b : bool then
    add "f_1" (JensenCosineYaw nTurbs direction_id model_options)
  else
  b ← variant_is model_options "CosineYawIntegral";
  if b : bool then
    add "f_1" (JensenCosineYawIntegral nTurbs direction_id model_options)
  else
  b ← variant_is model_options "CosineYaw";
  if b : bool then
    add "f_1" (JensenCosineYaw nTurbs direction_id model_options)
  else Ok self.

End Jensen.

(** ** The quantities of the kernel, named

    Each definition below is one expression of the code above, with the
    array accesses written as total lookups; the theorems relate the
    arrays the code builds to them. *)

(** [bound_angle*np.pi/180.0] *)
Definition to_radians (bound_angle : float64) : float64 :=
  (bound_angle * NP.pi / Fin 180)%np.

(** [z], for a bound angle [b] in radians. *)
Definition wake_offset (R0 b relaxationFactor : float64) : float64 :=
  (relaxationFactor * R0 * NP.sin (NP.pi / Fin 2 - b) / NP.sin b)%np.

(** [theta] of the pair [(i, j)]. *)
Definition wake_angle (X Y : list float64) (z : float64) (i j : nat)
  : float64 :=
  NP.arctan ((Y !!! j - Y !!! i) / (X !!! j - X !!! i + z))%np.

(** [-bound_angle < theta < bound_angle] *)
Definition in_cone (b theta : float64) : bool :=
  ((- b <? theta) && (theta <? b))%np.

(** [(1. + np.cos(q*theta))/2.] with [q = np.pi/bound_angle] *)
Definition cosine_taper (b theta : float64) : float64 :=
  ((Fin 1 + NP.cos (NP.pi / b * theta)) / Fin 2)%np.

(** The value [get_cosine_factor_original] leaves in [f_theta[i][j]]. *)
Definition cosine_factor (X Y : list float64)
    (R0 bound_angle relaxationFactor : float64) (i j : nat) : float64 :=
  let b := to_radians bound_angle in
  let theta := wake_angle X Y (wake_offset R0 b relaxationFactor) i j in
  if (X !!! i <? X !!! j)%np then
    if in_cone b theta then cosine_taper b theta else Fin 0
  else Fin 0.

(** [m[i][j]] as an option. *)
Definition get2 {A} (m : list (list A)) (i j : nat) : option A :=
  row ← m !! i; row !! j.

(** An [n] by [n] array. *)
Definition square_shape {A} (n : nat) (m : list (list A)) : Prop :=
  length m = n /\ forall i row, m !! i = Some row -> length row = n.

(** The entry [loss[j]] at the end of the inner loop for target [i],
    given the cosine factors [f j i]. *)
Definition deficit (X a r : list float64) (alpha : float64)
    (f : nat -> nat -> float64) (i j : nat) : float64 :=
  let dx := (X !!! i - X !!! j)%np in
  if (Fin 0 <? dx)%np then
    NP.square (Fin 2 * a !!! j
               * NP.square (f j i * r !!! j / (r !!! j + alpha * dx)))%np
  else Fin 0.

(** [totalLoss] for target [i] over [n] turbines. *)
Definition total_loss (n : nat) (X a r : list float64) (alpha : float64)
    (f : nat -> nat -> float64) (i : nat) : float64 :=
  NP.sqrt (NP.sum (deficit X a r alpha f i <$> seq 0 n)).

(** ** The quantities of [solve_nonlinear], and inputs used below *)

(** [r = 0.5*params['rotorDiameter']] *)
Definition radii (p : params) : list float64 :=
  (fun d => Fin 0.5 * d)%np <$> rotorDiameter p.

(** The cosine factors [solve_nonlinear] works with, for a numeric
    radius multiplier [rm]. *)
Definition factors (p : params) (rm : float64) : nat -> nat -> float64 :=
  cosine_factor (turbineXw p) (turbineYw p) (radii p !!! 0%nat * rm)%np
    (scalar_value (model_params_spread_angle p))
    (model_params_relaxationFactor p).

(** [loss[j]] and [totalLoss] for target [i] in [solve_nonlinear]. *)
Definition loss_of (p : params) (rm : float64) (i j : nat) : float64 :=
  deficit (turbineXw p) (axialInduction p) (radii p) (model_params_alpha p)
    (factors p rm) i j.

Definition totalLoss_of (self : cosine_component) (p : params) (rm : float64)
    (i : nat) : float64 :=
  total_loss (nTurbines self) (turbineXw p) (axialInduction p) (radii p)
    (model_params_alpha p) (factors p rm) i.

(** The arrays are long enough for [nTurbines] turbines. *)
Definition well_shaped (self : cosine_component) (p : params) : Prop :=
  nTurbines self <= length (turbineXw p) /\
  length (turbineXw p) <= length (turbineYw p) /\
  nTurbines self <= length (axialInduction p) /\
  nTurbines self <= length (rotorDiameter p) /\
  0 < length (rotorDiameter p).

(** The inputs on which [solve_nonlinear] raises nothing: arrays that are
    long enough, and a spread angle that is not the Python float zero. *)
Definition accepted (self : cosine_component) (p : params) : Prop :=
  well_shaped self p /\ model_params_spread_angle p <> PyFloat (Fin 0).

(** The matrix [solve_nonlinear] receives from
    [get_cosine_factor_original]. *)
Definition f_theta_of (p : params) (rm : float64)
  : result (list (list float64)) :=
  get_cosine_factor_original (turbineXw p) (turbineYw p)
    (radii p !!! 0 * rm)%np (model_params_spread_angle p)
    (model_params_relaxationFactor p).

(** Two aligned turbines 500 m apart, with the default parameters of
    the component. *)
Definition two_turbines : params :=
  {| turbineXw := [Fin 0; Fin 500];
     turbineYw := [Fin 0; Fin 0];
     turbineZ := [Fin 0; Fin 0];
     rotorDiameter := [Fin 80; Fin 80];
     model_params_alpha := Fin 0.1;
     model_params_spread_angle := NpFloat (Fin 20);
     axialInduction := [Fin (1 / 3); Fin (1 / 3)];
     wind_speed := Fin 8;
     model_params_relaxationFactor := Fin 1 |}.

(** The reference pair of turbines with zero axial induction. *)
Definition two_turbines_idle : params :=
  {| turbineXw := turbineXw two_turbines;
     turbineYw := turbineYw two_turbines;
     turbineZ := turbineZ two_turbines;
     rotorDiameter := rotorDiameter two_turbines;
     model_params_alpha := model_params_alpha two_turbines;
     model_params_spread_angle := model_params_spread_angle two_turbines;
     axialInduction := [Fin 0; Fin 0];
     wind_speed := wind_speed two_turbines;
     model_params_relaxationFactor :=
       model_params_relaxationFactor two_turbines |}.

(** Two turbines one metre apart on the wake axis, with a high induction
    factor. *)
Definition dense_pair : params :=
  {| turbineXw := [Fin 0; Fin 1];
     turbineYw := [Fin 0; Fin 0];
     turbineZ := [Fin 0; Fin 0];
     rotorDiameter := [Fin 2; Fin 2];
     model_params_alpha := Fin 0.1;
     model_params_spread_angle := NpFloat (Fin 20);
     axialInduction := [Fin 0.9; Fin 0.9];
     wind_speed := Fin 8;
     model_params_relaxationFactor := Fin 1 |}.

(** The dictionary the [except] branch installs. *)
Definition default_options : options :=
  Some {[ "variant" := PyStr "Tophat" ]}.

(** The tags the dispatch compares against. *)
Definition dispatch_tags : list string :=
  ["TopHat"; "Cosine"; "CosineFortran"; "CosineNoOverlap_1R";
   "CosineNoOverlap_2R"; "Conference"; "CosineYaw_1R"; "CosineYaw_2R";
   "CosineYawIntegral"; "CosineYaw"].

(** Two outputs agree within [tol]: the same exception, or arrays of the
    same length whose entries are equal or finite and [tol]-close. *)
Definition close (tol : R) (a b : float64) : Prop :=
  a = b \/ exists x y, a = Fin x /\ b = Fin y /\ (Rabs (x - y) <= tol)%R.

Definition numerically_equivalent (tol : R)
    (r1 r2 : result (list float64)) : Prop :=
  match r1, r2 with
  | Ok l1, Ok l2 => Forall2 (close tol) l1 l2
  | Raise e1, Raise e2 => e1 = e2
  | _, _ => False
  end.

(** ** Further quantities and functions of the file *)

(** The value of the first assignment to [loss[j]], before it is
    squared. *)
Definition pair_deficit (X a r : list float64) (alpha : float64)
    (f : nat -> nat -> float64) (i j : nat) : float64 :=
  (Fin 2 * a !!! j
   * NP.square (f j i * r !!! j / (r !!! j + alpha * (X !!! i - X !!! j))))%np.

(** Every pair whose [theta] is computed has both indices inside [Y]. *)
Definition reads_inside (X Y : list float64) : Prop :=
  forall i j, i < length X -> j < length X ->
    (X !!! i <? X !!! j)%np = true -> i < length Y /\ j < length Y.

(** [IndepVarComp(name, val, pass_by_obj=True, desc=...)] *)
Inductive indep_var_comp : Type :=
| IndepVarComp (name : string) (val : float64).

(** The calls [openmdao_object.add(name, comp, promotes=['*'])] made on
    an object, in order; each call is taken to return. *)
Definition add_calls : Type := list (string * indep_var_comp).

(** The function returns nothing; its effect is the calls it has made
    when it returns or raises. *)
Definition add_jensen_params_IndepVarComps
    (openmdao_object : add_calls) (model_options : options)
  : add_calls * result unit :=
  let openmdao_object :=
    openmdao_object ++ [("jp0", IndepVarComp "model_params:alpha" (Fin 2))] in
  match Jensen.or_else (Jensen.variant_is model_options "Cosine")
                       (Jensen.variant_is model_options "CosineNoOverlap") with
  | Ok true =>
      (openmdao_object
         ++ [("jp1", IndepVarComp "model_params:spread_angle" (Fin 2))],
       Ok tt)
  | Ok false => (openmdao_object, Ok tt)
  | Raise e => (openmdao_object, Raise e)
  end.

(** The tags of the dispatch whose branch imports a class from
    [JensenOpenMDAOconnect_extension], a module that is not part of this
    file. *)
Definition extension_tags : list string :=
  ["CosineNoOverlap_1R"; "CosineNoOverlap_2R"; "Conference"; "CosineYaw_1R";
   "CosineYaw_2R"; "CosineYawIntegral"; "CosineYaw"].

(** The component classes this file defines itself. *)
Definition defined_here (c : component) : Prop :=
  match c with
  | JensenTopHat _ _ | JensenCosine _ | JensenCosineFortran _ => True
  | _ => False
  end.

(** ** Magnitudes

    The model above computes with exact reals, the program with 64-bit
    floats.  Which expression lands in which cell does not depend on the
    difference; a computed value can.  Theorems about values are stated
    for magnitudes at which the float64 evaluation neither overflows nor
    underflows:
    - a bound angle of magnitude below about [1.4e-322] degrees is
      converted to the radian value [0.0], and for a bound angle below
      about [1e-306] degrees [np.pi/bound_angle] overflows to [inf];
      [tiny] stays clear of both;
    - a product of two numbers of at most [large] is finite;
    - the square of a number between [1e-150] and [1e150] is a normal
      float64, so that its square root is the number itself.
    What the program does outside these bounds is replayed with the
    float64 operations themselves in [F64] below. *)
Definition tiny : R := 1e-300.
Definition large : R := 1e100.

(** [np.pi/bound_angle] has a non-zero divisor, or a numpy one: the bound
    angle is a numpy float, or a Python float that is not finite or whose
    magnitude is at least [tiny]. *)
Definition divides (bound_angle : scalar) : Prop :=
  match bound_angle with
  | PyFloat (Fin x) => (tiny <= Rabs x)%R
  | PyFloat _ | NpFloat _ => True
  end.

(** A number whose square is computed without overflow or underflow. *)
Definition squares_exactly (d : R) : Prop :=
  (d = 0 \/ 1e-150 <= d <= 1e150)%R.

(** ** float64, as the machine computes it

    [get_cosine_factor_original] once more, over the binary64 numbers of
    the kernel: products, quotients, sums and comparisons are the IEEE 754
    operations, with their rounding, overflow and underflow.  The three
    functions numpy takes from the C library are parameters. *)
Module F64.
Import PrimFloat.
Local Open Scope float_scope.

(** [np.pi] *)
Definition pi : float := 0x1.921fb54442d18p+1.

(** [np.sin], [np.cos] and [np.arctan] on float64 scalars. *)
Record libm : Type := {
  sin : float -> float;
  cos : float -> float;
  arctan : float -> float
}.

(** What is used of them: the sine of [np.pi/2.] is 1, the sine of a
    subnormal number (one below [least_normal] in magnitude) is the
    number itself, the arc tangent of zero is zero, and the cosine of NaN
    is NaN. *)
Definition least_normal : float := 0x1p-1022.

Definition libm_facts (np : libm) : Prop :=
  sin np (pi / 2) = 1 /\
  (forall x, (abs x <? least_normal) = true -> sin np x = x) /\
  arctan np 0 = 0 /\
  cos np nan = nan.

Inductive scalar : Type :=
| PyFloat (x : float)
| NpFloat (x : float).

Definition scalar_value (s : scalar) : float :=
  match s with
  | PyFloat x | NpFloat x => x
  end.

Definition scalar_map (f : float -> float) (s : scalar) : scalar :=
  match s with
  | PyFloat x => PyFloat (f x)
  | NpFloat x => NpFloat (f x)
  end.

(** [np.pi/s]: Python's division raises on a divisor equal to zero
    ([0.0] or [-0.0]), numpy's returns an infinity. *)
Definition pi_over (s : scalar) : result float :=
  match s with
  | PyFloat x => if x =? 0 then Raise ZeroDivisionError else Ok (pi / x)
  | NpFloat x => Ok (pi / x)
  end.

(** [np.zeros((n, m))] *)
Definition zeros2 (n m : nat) : list (list float) :=
  replicate n (replicate m 0).

Definition get_cosine_factor_original (np : libm)
    (X Y : list float) (R0 : float) (bound_angle : scalar)
    (relaxationFactor : float)
  : result (list (list float)) :=
  let n := length X in
  let bound_angle := scalar_map (fun b => b * pi / 180) bound_angle in
  let f_theta := zeros2 n n in
  q ← pi_over bound_angle;
  let bound_angle := scalar_value bound_angle in
  let gamma := pi / 2 - bound_angle in
  for_range n (fun i f_theta =>
    for_range n (fun j f_theta =>
      Xi ← getitem X i;
      Xj ← getitem X j;
      if Xi <? Xj then
        let z := relaxationFactor * R0 * sin np gamma
                 / sin np bound_angle in
        Yj ← getitem Y j;
        Yi ← getitem Y i;
        Xj ← getitem X j;
        Xi ← getitem X i;
        let theta := arctan np ((Yj - Yi) / (Xj - Xi + z)) in
        if (- bound_angle <? theta) && (theta <? bound_angle) then
          setitem2 f_theta i j ((1 + cos np (q * theta)) / 2)
        else Ok f_theta
      else Ok f_theta) f_theta) f_theta.

(** [0 <= v <= 1] *)
Definition in_unit (v : float) : bool := (0 <=? v) && (v <=? 1).

(** Two turbines 500 m apart on the wake axis, [R0 = 40] and relaxation
    factor 1. *)
Definition pair_X : list float := [0; 500].
Definition pair_Y : list float := [0; 0].
Definition pair_R0 : float := 40.
Definition pair_relaxation : float := 1.

(** The float64 nearest to [1e-307], and the least positive float64,
    [5e-324]. *)
Definition angle_1em307 : float := 0x1.1fa182c40c60dp-1020.
Definition angle_5em324 : float := 0x1p-1074.

End F64.

(** * Proofs *)

#[global] Arguments getitem : simpl never.
#[global] Arguments setitem : simpl never.
#[global] Arguments setitem2 : simpl never.
#[global] Arguments for_range : simpl never.

(** Run the binds whose first computation is a known [Ok] or [Raise]. *)
Ltac rsimpl := cbn [mbind result_bind rbind].

(** Decide the comparisons of concrete reals in the goal. *)
Ltac np_decide :=
  repeat match goal with
  | |- context [Rlt_dec ?a ?b] => destruct (Rlt_dec a b); try lra
  | |- context [Req_dec_T ?a ?b] => destruct (Req_dec_T a b); try lra
  end.

(** ** Loops and arrays *)

Section loops.
Context {St : Type}.
Implicit Types (body : nat -> St -> result St) (s : St).

Lemma for_in_app l1 l2 body s :
  for_in (l1 ++ l2) body s = (s' ← for_in l1 body s; for_in l2 body s').
Proof.
  revert s. induction l1 as [|i l1 IH]; intros s; simpl; [done|].
  destruct (body i s) as [s'|e]; simpl; [apply IH|done].
Qed.

Lemma for_range_S n body s :
  for_range (S n) body s = (s' ← for_range n body s; body n s').
Proof.
  unfold for_range. rewrite seq_S, for_in_app. simpl.
  destruct (for_in (seq 0 n) body s) as [s'|e]; simpl; [|done].
  by destruct (body n s').
Qed.

(** The loop rule: an invariant indexed by the number of iterations
    done, kept by every iteration, which also does not raise. *)
Lemma for_range_inv (I : nat -> St -> Prop) n body s :
  I 0 s ->
  (forall k s, k < n -> I k s -> exists s', body k s = Ok s' /\ I (S k) s') ->
  exists s', for_range n body s = Ok s' /\ I n s'.
Proof.
  intros H0 Hstep. induction n as [|n IH].
  - exists s. by split.
  - destruct IH as (s1 & Hs1 & HI1).
    { intros k s0 Hk. apply Hstep. lia. }
    destruct (Hstep n s1) as (s2 & Hs2 & HI2); [lia|done|].
    exists s2. split; [|done].
    rewrite for_range_S, Hs1. simpl. done.
Qed.
End loops.

Lemma getitem_Some {A} (l : list A) i a : l !! i = Some a -> getitem l i = Ok a.
Proof. unfold getitem. by intros ->. Qed.

Lemma getitem_total `{Inhabited A} (l : list A) i :
  i < length l -> getitem l i = Ok (l !!! i).
Proof.
  intros Hi. apply getitem_Some. by apply list_lookup_lookup_total_lt.
Qed.

Lemma setitem_lt {A} (l : list A) i v :
  i < length l -> setitem l i v = Ok (<[i:=v]> l).
Proof. intros Hi. unfold setitem. by rewrite decide_True. Qed.

Lemma setitem2_spec {A} n (m : list (list A)) i j v :
  square_shape n m -> i < n -> j < n ->
  exists m', setitem2 m i j v = Ok m' /\ square_shape n m' /\
    forall i' j', get2 m' i' j' =
      if decide (i' = i /\ j' = j) then Some v else get2 m i' j'.
Proof.
  intros [Hlen Hrows] Hi Hj.
  destruct (lookup_lt_is_Some_2 m i) as [row Hrow]; [lia|].
  pose proof (Hrows _ _ Hrow) as Hrl.
  exists (<[i:=<[j:=v]> row]> m). split; [|split].
  - unfold setitem2. rewrite (getitem_Some _ _ _ Hrow). simpl.
    rewrite setitem_lt by lia. simpl. apply setitem_lt. lia.
  - split; [by rewrite length_insert|].
    intros i' row'. destruct (decide (i' = i)) as [->|Hne].
    + rewrite list_lookup_insert_eq by lia. intros [= <-].
      by rewrite length_insert.
    + rewrite list_lookup_insert_ne by done. apply Hrows.
  - intros i' j'. unfold get2. destruct (decide (i' = i)) as [->|Hne].
    + rewrite list_lookup_insert_eq by lia. simpl. rewrite Hrow. simpl.
      destruct (decide (j' = j)) as [->|Hnj].
      * rewrite decide_True by done. apply list_lookup_insert_eq. lia.
      * rewrite decide_False by tauto.
        by apply list_lookup_insert_ne.
    + rewrite list_lookup_insert_ne by done.
      rewrite decide_False by tauto. done.
Qed.

Lemma zeros2_shape n : square_shape n (NP.zeros2 n n).
Proof.
  split; [apply length_replicate|].
  intros i row [-> _]%lookup_replicate. apply length_replicate.
Qed.

Lemma get2_zeros2 n i j : i < n -> j < n -> get2 (NP.zeros2 n n) i j = Some (Fin 0).
Proof.
  intros Hi Hj. unfold get2, NP.zeros2, NP.zeros.
  rewrite lookup_replicate_2 by done. simpl. by apply lookup_replicate_2.
Qed.

(** ** Arithmetic on [float64] *)

Section arithmetic.
Local Open Scope R_scope.

Lemma div_fin x y : y <> 0 -> (Fin x / Fin y)%np = Fin (x / y).
Proof. intros Hy. simpl. by destruct (Req_dec_T y 0). Qed.

Lemma ltb_fin x y : (Fin x <? Fin y)%np = true <-> x < y.
Proof. simpl. destruct (Rlt_dec x y); split; done. Qed.

Lemma ltb_fin_false x y : (Fin x <? Fin y)%np = false <-> ~ x < y.
Proof. simpl. destruct (Rlt_dec x y); split; done. Qed.

Lemma ltb_irrefl a : (a <? a)%np = false.
Proof. destruct a; simpl; try done. destruct (Rlt_dec x x); [lra|done]. Qed.

Lemma to_radians_fin ba : to_radians (Fin ba) = Fin (ba * PI / 180).
Proof. unfold to_radians. cbn [NP.mul NP.pi]. apply div_fin. lra. Qed.

Lemma to_radians_zero b : to_radians b = Fin 0 -> b = Fin 0.
Proof.
  pose proof PI_RGT_0. destruct b as [x| | |].
  - rewrite to_radians_fin. intros [= Hx]. f_equal.
    assert (Hm : x * PI = 0) by lra.
    destruct (Rmult_integral _ _ Hm); lra.
  - unfold to_radians, NP.pi. cbn [NP.mul]. unfold NP.signed_inf.
    destruct (Rlt_dec 0 PI); [|lra]. simpl. by destruct (Rlt_dec 180 0).
  - unfold to_radians, NP.pi. cbn [NP.mul]. unfold NP.signed_inf.
    destruct (Rlt_dec 0 (- PI)); [lra|]. destruct (Rlt_dec (- PI) 0); [|lra].
    simpl. by destruct (Rlt_dec 180 0).
  - done.
Qed.

(** [q = np.pi/bound_angle] raises only for the Python float zero. *)
Lemma pi_over_radians bound_angle :
  bound_angle <> PyFloat (Fin 0) ->
  pi_over (scalar_map (fun b => b * NP.pi / Fin 180)%np bound_angle)
    = Ok (NP.pi / to_radians (scalar_value bound_angle))%np.
Proof.
  intros Hne. destruct bound_angle as [b|b]; [|done]. simpl.
  fold (to_radians b).
  assert (Hb : to_radians b <> Fin 0).
  { intros Hz%to_radians_zero. by subst. }
  destruct (to_radians b) as [x| | |]; try done.
  destruct (Req_dec_T x 0) as [->|]; done.
Qed.

Lemma pi_over_zero :
  pi_over (scalar_map (fun b => b * NP.pi / Fin 180)%np (PyFloat (Fin 0)))
    = Raise ZeroDivisionError.
Proof.
  unfold scalar_map.
  change (Fin 0 * NP.pi / Fin 180)%np with (to_radians (Fin 0)).
  rewrite to_radians_fin. simpl.
  destruct (Req_dec_T (0 * PI / 180) 0); [done|lra].
Qed.

Lemma leb_not_ltb a b : (a <=? b)%np = true -> (b <? a)%np = false.
Proof.
  destruct a, b; simpl; try done.
  destruct (Rle_dec x x0), (Rlt_dec x0 x); done || lra.
Qed.

(** [0 < a - b] is the test [b < a], on special values too. *)
Lemma ltb_sub_pos a b : (Fin 0 <? a - b)%np = (b <? a)%np.
Proof.
  destruct a, b; simpl; try done.
  destruct (Rlt_dec 0 (x + - x0)), (Rlt_dec x0 x); done || lra.
Qed.

(** The chained comparison of the code is [|theta| < bound_angle]. *)
Lemma in_cone_abs b theta : in_cone b theta = (NP.abs theta <? b)%np.
Proof.
  unfold in_cone. destruct b as [b| | |], theta as [t| | |]; simpl; try done.
  destruct (Rlt_dec (- b) t), (Rlt_dec t b), (Rlt_dec (Rabs t) b);
    simpl; try done; exfalso; unfold Rabs in *; destruct (Rcase_abs t); lra.
Qed.

Lemma in_cone_fin b theta :
  in_cone b theta = true ->
  exists t, theta = Fin t /\
    (b = PInf \/ exists b', b = Fin b' /\ - b' < t < b').
Proof.
  unfold in_cone. intros [H1 H2]%andb_true_iff.
  destruct theta as [t| | |]; try by destruct b.
  exists t. split; [done|]. destruct b as [b'| | |]; try done; [|by left].
  right. exists b'. split; [done|].
  apply ltb_fin in H2. simpl in H1. apply ltb_fin in H1. lra.
Qed.

(** Inside the cone the taper is a finite number, the raised cosine. *)
Lemma cosine_taper_in_cone b theta :
  in_cone b theta = true ->
  exists t q, theta = Fin t /\ (NP.pi / b)%np = Fin q /\
    cosine_taper b theta = Fin ((1 + cos (q * t)) / 2).
Proof.
  intros (t & -> & Hb)%in_cone_fin. exists t.
  assert (Hq : exists q, (NP.pi / b)%np = Fin q).
  { destruct Hb as [->|(b' & -> & Hb')]; [by exists 0|].
    exists (PI / b'). apply div_fin. lra. }
  destruct Hq as [q Hq]. exists q. split; [done|]. split; [done|].
  unfold cosine_taper. rewrite Hq. cbn [NP.mul NP.cos NP.add].
  apply div_fin. lra.
Qed.

Lemma cosine_taper_range b theta :
  in_cone b theta = true ->
  exists v, cosine_taper b theta = Fin v /\ 0 <= v <= 1.
Proof.
  intros (t & q & _ & _ & ->)%cosine_taper_in_cone.
  eexists. split; [done|]. pose proof (COS_bound (q * t)). lra.
Qed.

(** Every value [cosine_factor] can take is a finite number in [0, 1]:
    no infinity and no NaN passes the test on [theta]. *)
Lemma cosine_factor_range X Y R0 bound_angle relaxationFactor i j :
  exists v,
    cosine_factor X Y R0 bound_angle relaxationFactor i j = Fin v /\
    0 <= v <= 1.
Proof.
  unfold cosine_factor.
  destruct (X !!! i <? X !!! j)%np; [|exists 0; split; [done|lra]].
  match goal with |- context [in_cone ?b ?t] =>
    destruct (in_cone b t) eqn:Hc end; [|exists 0; split; [done|lra]].
  by apply cosine_taper_range.
Qed.

End arithmetic.

(** ** The cosine-factor matrix *)

(** When [Y] is at least as long as [X], the two loops run to completion
    and leave [cosine_factor X Y ... i j] in every cell. *)
Lemma get_cosine_factor_original_spec X Y R0 bound_angle relaxationFactor :
  length X <= length Y -> bound_angle <> PyFloat (Fin 0) ->
  exists m,
    get_cosine_factor_original X Y R0 bound_angle relaxationFactor = Ok m /\
    square_shape (length X) m /\
    forall i j, i < length X -> j < length X ->
      get2 m i j =
        Some (cosine_factor X Y R0 (scalar_value bound_angle)
                relaxationFactor i j).
Proof.
  intros HY Hba0. unfold get_cosine_factor_original.
  rewrite (pi_over_radians _ Hba0). rsimpl.
  replace (scalar_value (scalar_map (fun b => b * NP.pi / Fin 180)%np bound_angle))
    with (to_radians (scalar_value bound_angle)) by by destruct bound_angle.
  set (n := length X).
  set (cf := cosine_factor X Y R0 (scalar_value bound_angle) relaxationFactor).
  set (outer := fun (k : nat) (m : list (list float64)) =>
    square_shape n m /\
    forall i j, i < n -> j < n ->
      get2 m i j = Some (if decide (i < k) then cf i j else Fin 0)).
  match goal with |- context [for_range n ?body ?s] =>
    destruct (for_range_inv outer n body s) as (m & Hm & Hsh & Hcells)
  end.
  - split; [apply zeros2_shape|]. intros i j Hi Hj.
    rewrite decide_False by lia. by apply get2_zeros2.
  - intros i m0 Hi [Hsh0 Hcells0].
    set (inner := fun (k : nat) (m : list (list float64)) =>
      square_shape n m /\
      forall i' j, i' < n -> j < n ->
        get2 m i' j =
          Some (if decide (i' < i \/ (i' = i /\ j < k)) then cf i' j else Fin 0)).
    match goal with |- context [for_range n ?body ?s] =>
      destruct (for_range_inv inner n body s) as (m & Hm & Hsh & Hcells)
    end.
    + split; [done|]. intros i' j Hi' Hj. rewrite Hcells0 by done.
      do 2 f_equal. repeat case_decide; done || lia.
    + intros j m1 Hj [Hsh1 Hcells1].
      assert (Hkeep : cf i j = Fin 0 -> inner (S j) m1).
      { intros Hz. split; [done|]. intros i' j' Hi' Hj'.
        rewrite Hcells1 by done. f_equal.
        destruct (decide (i' = i /\ j' = j)) as [[-> ->]|Hne].
        - rewrite decide_False by lia. rewrite decide_True by lia. done.
        - repeat case_decide; done || lia. }
      rewrite !getitem_total by (fold n; lia). rsimpl.
      set (b := to_radians (scalar_value bound_angle)).
      set (theta := wake_angle X Y (wake_offset R0 b relaxationFactor) i j).
      assert (Hcf : cf i j =
        if (X !!! i <? X !!! j)%np then
          if in_cone b theta then cosine_taper b theta else Fin 0
        else Fin 0) by reflexivity.
      change (exists s',
        (if (X !!! i <? X !!! j)%np then
           if in_cone b theta then setitem2 m1 i j (cosine_taper b theta)
           else Ok m1
         else Ok m1) = Ok s' /\ inner (S j) s').
      destruct (X !!! i <? X !!! j)%np; [|eauto].
      destruct (in_cone b theta); [|eauto].
      destruct (setitem2_spec n m1 i j (cosine_taper b theta))
        as (m2 & Hm2 & Hsh2 & Hget2); [done..|].
      exists m2. split; [done|]. split; [done|].
      intros i' j' Hi' Hj'. rewrite Hget2.
      destruct (decide (i' = i /\ j' = j)) as [[-> ->]|Hne].
      * rewrite decide_True by lia. by rewrite Hcf.
      * rewrite Hcells1 by done. f_equal. repeat case_decide; done || lia.
    + exists m. split; [done|]. split; [done|].
      intros i' j Hi' Hj. rewrite Hcells by done. do 2 f_equal.
      repeat case_decide; done || lia.
  - exists m. split; [done|]. split; [done|].
    intros i j Hi Hj. rewrite Hcells by done. by rewrite decide_True.
Qed.

(** ** The cosine variant *)

Lemma get2_inv {A} (m : list (list A)) i j v :
  get2 m i j = Some v -> exists row, m !! i = Some row /\ row !! j = Some v.
Proof.
  unfold get2. destruct (m !! i) as [row|]; simpl; [|done]. by exists row.
Qed.

Lemma cosine_prelude self p rm :
  radius_multiplier self = PyNum rm -> accepted self p ->
  exists f,
    getitem (radii p) 0 = Ok (radii p !!! 0%nat) /\
    mul_pyval (radii p !!! 0%nat) (radius_multiplier self)
      = Ok (radii p !!! 0%nat * rm)%np /\
    get_cosine_factor_original (turbineXw p) (turbineYw p)
      (radii p !!! 0%nat * rm)%np (model_params_spread_angle p)
      (model_params_relaxationFactor p) = Ok f /\
    forall i j, i < length (turbineXw p) -> j < length (turbineXw p) ->
      get2 f i j = Some (factors p rm i j).
Proof.
  intros Hrm [(HX & HY & Ha & HD & HD0) Hba0].
  destruct (get_cosine_factor_original_spec (turbineXw p) (turbineYw p)
    (radii p !!! 0%nat * rm)%np (model_params_spread_angle p)
    (model_params_relaxationFactor p) HY Hba0) as (f & Hf & _ & Hcells).
  exists f. split; [|split; [|split]]; try done.
  - apply getitem_total. unfold radii. by rewrite length_fmap.
  - by rewrite Hrm.
Qed.

Lemma JensenCosine_solve_nonlinear_spec self p rm :
  radius_multiplier self = PyNum rm -> accepted self p ->
  exists hubVelocity,
    JensenCosine.solve_nonlinear self p = Ok hubVelocity /\
    length hubVelocity = nTurbines self /\
    forall i, i < nTurbines self ->
      hubVelocity !! i =
        Some ((Fin 1 - totalLoss_of self p rm i) * wind_speed p)%np.
Proof.
  intros Hrm Hws.
  destruct (cosine_prelude self p rm Hrm Hws) as (f & Hr0 & HR0 & Hf & Hcells).
  destruct Hws as [(HX & HY & Ha & HD & HD0) _].
  unfold JensenCosine.solve_nonlinear. fold (radii p).
  rewrite Hr0. rsimpl. rewrite HR0. rsimpl. rewrite Hf. rsimpl.
  set (n := nTurbines self) in *.
  set (vel := fun i => ((Fin 1 - totalLoss_of self p rm i) * wind_speed p)%np).
  set (outer := fun (k : nat) (st : list float64 * list float64) =>
    length st.1 = n /\ length st.2 = n /\
    forall i, i < n ->
      st.2 !! i = Some (if decide (i < k) then vel i else Fin 0)).
  match goal with |- context [for_range n ?body ?s] =>
    destruct (for_range_inv outer n body s) as ([l hv] & Hst & _ & Hlen & Hhv)
  end.
  - split; [apply length_replicate|]. split; [apply length_replicate|].
    intros i Hi. rewrite decide_False by lia. by apply lookup_replicate_2.
  - intros i [loss0 hv0] Hi (Hl0 & Hh0 & Hhv0). simpl in Hl0, Hh0, Hhv0.
    set (inner := fun (k : nat) (loss : list float64) =>
      length loss = n /\
      forall j, j < n ->
        loss !! j =
          Some (if decide (j < k) then loss_of p rm i j else Fin 0)).
    match goal with |- context [for_range n ?body ?s] =>
      destruct (for_range_inv inner n body s) as (loss & Hloss & Hll & Hlj)
    end.
    + split; [by rewrite length_fmap|]. intros j Hj.
      rewrite decide_False by lia. rewrite list_lookup_fmap.
      destruct (lookup_lt_is_Some_2 loss0 j) as [x ->]; [lia|done].
    + intros j loss1 Hj [Hl1 Hlj1].
      assert (Hext : forall v, loss_of p rm i j = v ->
                inner (S j) (<[j:=v]> loss1)).
      { intros v Hv. split; [by rewrite length_insert|]. intros j' Hj'.
        destruct (decide (j' = j)) as [->|Hne].
        - rewrite list_lookup_insert_eq by lia.
          rewrite decide_True by lia. by rewrite Hv.
        - rewrite list_lookup_insert_ne by done. rewrite Hlj1 by done.
          f_equal. repeat case_decide; done || lia. }
      rewrite !(getitem_total (turbineXw p)) by lia. rsimpl.
      pose proof (eq_refl : loss_of p rm i j = _) as Hd.
      unfold loss_of at 2, deficit in Hd.
      destruct (Fin 0 <? turbineXw p !!! i - turbineXw p !!! j)%np.
      * rewrite (getitem_total (axialInduction p)) by lia. rsimpl.
        destruct (get2_inv f j i _ (Hcells j i ltac:(lia) ltac:(lia)))
          as (row & Hrow & Hcell).
        rewrite (getitem_Some _ _ _ Hrow). rsimpl.
        rewrite (getitem_Some _ _ _ Hcell). rsimpl.
        rewrite !(getitem_total (radii p))
          by (unfold radii; rewrite length_fmap; lia).
        rsimpl. rewrite setitem_lt by lia. rsimpl.
        rewrite (getitem_Some _ j _ (list_lookup_insert_eq loss1 j _ ltac:(lia))).
        rsimpl. rewrite setitem_lt by (rewrite length_insert; lia).
        rewrite list_insert_insert_eq. eexists. split; [done|].
        apply Hext. by rewrite Hd.
      * exists loss1. split; [done|]. rewrite <- (list_insert_id loss1 j (Fin 0)).
        { apply Hext. by rewrite Hd. }
        rewrite Hlj1 by done. by rewrite decide_False by lia.
    + rewrite Hloss. rsimpl.
      assert (Hloss_eq : loss = loss_of p rm i <$> seq 0 n).
      { apply list_eq_same_length with n; [by rewrite length_fmap, length_seq|done|].
        intros j x y Hj Hx Hy. rewrite Hlj, decide_True in Hx by done.
        rewrite list_lookup_fmap, lookup_seq_lt in Hy by done.
        simpl in Hy. congruence. }
      rewrite setitem_lt by lia. rsimpl. eexists. split; [done|].
      split; [done|]. split; [simpl; by rewrite length_insert|].
      intros i' Hi'. simpl. destruct (decide (i' = i)) as [->|Hne].
      * rewrite list_lookup_insert_eq by lia. rewrite decide_True by lia.
        by rewrite Hloss_eq.
      * rewrite list_lookup_insert_ne by done. rewrite Hhv0 by done.
        f_equal. repeat case_decide; done || lia.
  - rewrite Hst. rsimpl. exists hv. split; [done|]. split; [done|].
    intros i Hi. rewrite Hhv by done. by rewrite decide_True.
Qed.

(** ** The geometry on finite inputs *)

Section geometry.
Local Open Scope R_scope.

Lemma half_pi : (NP.pi / Fin 2)%np = Fin (PI / 2).
Proof. apply div_fin. lra. Qed.

Lemma wake_offset_fin R0 b xi :
  sin b <> 0 ->
  wake_offset (Fin R0) (Fin b) (Fin xi)
    = Fin (xi * R0 * sin (PI / 2 - b) / sin b).
Proof.
  intros Hs. unfold wake_offset. rewrite half_pi.
  cbn [NP.sub NP.neg NP.add NP.sin NP.mul]. by apply div_fin.
Qed.

Lemma wake_angle_fin X Y z i j xi xj yi yj :
  X !!! i = Fin xi -> X !!! j = Fin xj ->
  Y !!! i = Fin yi -> Y !!! j = Fin yj ->
  xj - xi + z <> 0 ->
  wake_angle X Y (Fin z) i j = Fin (atan ((yj - yi) / (xj - xi + z))).
Proof.
  unfold wake_angle. intros -> -> -> -> Hd.
  cbn [NP.sub NP.neg NP.add]. by rewrite div_fin.
Qed.

(** A bound angle of [ba] degrees, [0 < ba < 90], in radians. *)
Lemma radians_valid ba :
  0 < ba < 90 -> 0 < ba * PI / 180 < PI / 2.
Proof. intros H. pose proof PI_RGT_0. split; nra. Qed.

Lemma cot_pos b : 0 < b < PI / 2 -> 0 < sin b /\ 0 < sin (PI / 2 - b).
Proof.
  intros H. pose proof PI_RGT_0. split.
  - apply sin_gt_0; lra.
  - rewrite sin_shift. apply cos_gt_0; lra.
Qed.

Lemma Rabs_atan u : Rabs (atan u) = atan (Rabs u).
Proof.
  unfold Rabs at 2. destruct (Rcase_abs u) as [Hu|Hu].
  - rewrite atan_opp. apply Rabs_left.
    rewrite <- atan_0. by apply atan_increasing.
  - apply Rabs_right. destruct Hu as [Hu| ->].
    + left. rewrite <- atan_0. by apply atan_increasing.
    + rewrite atan_0. lra.
Qed.

Lemma Rabs_quot y d : 0 < d -> Rabs (y / d) = Rabs y / d.
Proof.
  intros Hd. unfold Rdiv. rewrite Rabs_mult, Rabs_inv.
  by rewrite (Rabs_right d) by lra.
Qed.

(** Moving the apex further upstream narrows the angle. *)
Lemma angle_narrows y d1 d2 :
  0 < d1 -> d1 < d2 ->
  Rabs (atan (y / d2)) <= Rabs (atan (y / d1)) /\
  (y <> 0 -> Rabs (atan (y / d2)) < Rabs (atan (y / d1))).
Proof.
  intros H1 H2. rewrite !Rabs_atan, !Rabs_quot by lra.
  assert (Hinv : / d2 < / d1) by (apply Rinv_lt_contravar; nra).
  pose proof (Rabs_pos y) as Hy.
  assert (Hstrict : y <> 0 -> atan (Rabs y / d2) < atan (Rabs y / d1)).
  { intros Hne. apply atan_increasing. unfold Rdiv.
    apply Rmult_lt_compat_l; [|done]. by apply Rabs_pos_lt. }
  split; [|done]. destruct (Req_dec_T y 0) as [->|Hne].
  - rewrite Rabs_R0. unfold Rdiv. rewrite !Rmult_0_l. lra.
  - left. by apply Hstrict.
Qed.

(** The raised cosine does not decrease as the angle narrows. *)
Lemma taper_monotone q t1 t2 :
  0 <= q -> Rabs t2 <= Rabs t1 -> q * Rabs t1 <= PI ->
  (1 + cos (q * t1)) / 2 <= (1 + cos (q * t2)) / 2.
Proof.
  intros Hq Ht Hpi.
  assert (Hc : forall t, cos (q * t) = cos (q * Rabs t)).
  { intros t. unfold Rabs. destruct (Rcase_abs t); [|done].
    by rewrite <- cos_neg, Ropp_mult_distr_r. }
  rewrite (Hc t1), (Hc t2).
  pose proof (Rabs_pos t1). pose proof (Rabs_pos t2).
  assert (cos (q * Rabs t1) <= cos (q * Rabs t2)); [|lra].
  apply cos_decr_1; nra.
Qed.

End geometry.

Lemma get2_total (m : list (list float64)) i j v :
  get2 m i j = Some v -> (m !!! i) !!! j = v.
Proof.
  intros (row & Hrow & Hv)%get2_inv.
  rewrite (list_lookup_total_correct _ _ _ Hrow).
  by apply list_lookup_total_correct.
Qed.

(** * The claims *)

(** C2.  After the bound angle is converted from degrees to radians, the
    entry [f_theta[i][j]] of the matrix is [(1 + cos((pi/b)*theta))/2]
    when [X[i] < X[j]] and [|theta| < b], where
    [z = relaxationFactor*R0*sin(pi/2 - b)/sin(b)] and
    [theta = arctan((Y[j]-Y[i])/(X[j]-X[i]+z))]; every other entry, the
    diagonal included, is zero. *)
Theorem C2_cosine_factor_formula X Y R0 bound_angle relaxationFactor :
  length X <= length Y -> bound_angle <> PyFloat (Fin 0) ->
  exists f_theta,
    get_cosine_factor_original X Y R0 bound_angle relaxationFactor
      = Ok f_theta /\
    forall i j, i < length X -> j < length X ->
      let b := (scalar_value bound_angle * NP.pi / Fin 180)%np in
      let z := (relaxationFactor * R0 * NP.sin (NP.pi / Fin 2 - b)
                / NP.sin b)%np in
      let theta :=
        NP.arctan ((Y !!! j - Y !!! i) / (X !!! j - X !!! i + z))%np in
      get2 f_theta i j =
        Some (if (X !!! i <? X !!! j)%np then
                if (NP.abs theta <? b)%np
                then ((Fin 1 + NP.cos (NP.pi / b * theta)) / Fin 2)%np
                else Fin 0
              else Fin 0) /\
      get2 f_theta i i = Some (Fin 0).
Proof.
  intros HY Hba0.
  destruct (get_cosine_factor_original_spec X Y R0 bound_angle
              relaxationFactor HY Hba0) as (f & Hf & _ & Hcells).
  exists f. split; [done|]. intros i j Hi Hj b z theta. split.
  - rewrite Hcells by done. unfold cosine_factor.
    rewrite in_cone_abs. done.
  - rewrite Hcells by done. unfold cosine_factor.
    by rewrite ltb_irrefl.
Qed.

Lemma C2_cosine_factor_formula_witness :
  exists f_theta,
    get_cosine_factor_original [Fin 0; Fin 500] [Fin 0; Fin 0]
      (Fin 40) (PyFloat (Fin 20)) (Fin 1) = Ok f_theta /\
    get2 f_theta 1 1 = Some (Fin 0).
Proof.
  destruct (C2_cosine_factor_formula [Fin 0; Fin 500] [Fin 0; Fin 0]
              (Fin 40) (PyFloat (Fin 20)) (Fin 1)) as (f & Hf & Hcells).
  - simpl. lia.
  - intros [= H]. lra.
  - exists f. split; [exact Hf|].
    apply (Hcells 1 1); simpl; lia.
Defined.

(** C3 (as amended).  For a bound angle of at least [tiny] degrees, every
    entry of the cosine-factor matrix is a number in [0, 1]; the entry is
    zero whenever [X[i] >= X[j]]; and a positive entry implies
    [X[i] < X[j]] and [|theta_ij| < bound angle]. *)
Theorem C3_cosine_factor_invariant X Y R0 bound_angle ba relaxationFactor :
  length X <= length Y ->
  scalar_value bound_angle = Fin ba -> (tiny <= ba)%R ->
  exists f_theta,
    get_cosine_factor_original X Y R0 bound_angle relaxationFactor
      = Ok f_theta /\
    forall i j, i < length X -> j < length X ->
      (exists v, get2 f_theta i j = Some (Fin v) /\ (0 <= v <= 1)%R) /\
      ((X !!! j <=? X !!! i)%np = true -> get2 f_theta i j = Some (Fin 0)) /\
      (forall v, get2 f_theta i j = Some v -> (Fin 0 <? v)%np = true ->
         let b := to_radians (scalar_value bound_angle) in
         let theta :=
           wake_angle X Y (wake_offset R0 b relaxationFactor) i j in
         (X !!! i <? X !!! j)%np = true /\ (NP.abs theta <? b)%np = true).
Proof.
  intros HY Hv Hba.
  assert (Hba0 : bound_angle <> PyFloat (Fin 0)).
  { intros ->. injection Hv as Hv. unfold tiny in Hba. lra. }
  destruct (get_cosine_factor_original_spec X Y R0 bound_angle
              relaxationFactor HY Hba0) as (f & Hf & _ & Hcells).
  exists f. split; [done|]. intros i j Hi Hj.
  rewrite Hcells by done. split; [|split].
  - destruct (cosine_factor_range X Y R0 (scalar_value bound_angle)
                relaxationFactor i j) as (v & -> & Hv'). by exists v.
  - intros Hle%leb_not_ltb. unfold cosine_factor. by rewrite Hle.
  - intros v [= <-]. unfold cosine_factor. rewrite <- in_cone_abs.
    destruct (X !!! i <? X !!! j)%np; [|by rewrite ltb_irrefl].
    match goal with |- context [in_cone ?b ?t] => destruct (in_cone b t) end;
      [done|by rewrite ltb_irrefl].
Qed.

Lemma C3_cosine_factor_invariant_witness :
  exists f_theta,
    get_cosine_factor_original [Fin 0; Fin 500] [Fin 0; Fin 0]
      (Fin 40) (PyFloat (Fin 20)) (Fin 1) = Ok f_theta /\
    exists v, get2 f_theta 0 1 = Some (Fin v) /\ (0 <= v <= 1)%R.
Proof.
  destruct (C3_cosine_factor_invariant [Fin 0; Fin 500] [Fin 0; Fin 0]
              (Fin 40) (PyFloat (Fin 20)) 20 (Fin 1)) as (f & Hf & Hcells).
  - simpl. lia.
  - reflexivity.
  - unfold tiny. lra.
  - exists f. split; [exact Hf|].
    apply (Hcells 0 1); simpl; lia.
Defined.

(** *** A bound angle of 1e-307 degrees, in float64

    [b = 1e-307*pi/180] is the subnormal [1.745e-309], so that
    [q = pi/b] overflows to [inf]; [z = 40*sin(pi/2)/sin(b)] overflows
    too, the quotient [0/(500 + inf)] is [0], [theta = arctan(0) = 0]
    passes [-b < theta < b], and [q*theta = inf*0] is NaN: the entry
    stored is [(1 + cos(NaN))/2 = NaN]. *)
Lemma tiny_angle_replay np :
  F64.libm_facts np ->
  F64.get_cosine_factor_original np F64.pair_X F64.pair_Y F64.pair_R0
    (F64.NpFloat F64.angle_1em307) F64.pair_relaxation
  = Ok [[PrimFloat.zero; PrimFloat.nan]; [PrimFloat.zero; PrimFloat.zero]].
Proof.
  destruct np as [s c a]. unfold F64.libm_facts.
  cbn [F64.sin F64.cos F64.arctan].
  intros (Hs1 & Hs2 & Ha & Hc).
  vm_compute in Hs1. vm_compute in Ha. vm_compute in Hc.
  vm_compute. rewrite Hs1. rewrite Hs2 by reflexivity.
  vm_compute. rewrite Ha. vm_compute. rewrite Hc. reflexivity.
Qed.

(** The four facts assumed of the C library do not contradict each other:
    they hold already of a stand-in that is the identity on subnormal
    numbers, on zero and on NaN. *)
Lemma libm_facts_consistent : exists np, F64.libm_facts np.
Proof.
  exists {| F64.sin := fun x =>
              if PrimFloat.ltb (PrimFloat.abs x) F64.least_normal then x
              else PrimFloat.one;
            F64.cos := fun x => x;
            F64.arctan := fun x => x |}.
  unfold F64.libm_facts. cbn [F64.sin F64.cos F64.arctan].
  split; [reflexivity|]. split; [|split; reflexivity].
  intros x Hx. by rewrite Hx.
Qed.

(** C3 as stated fails for the bound angle [1e-307] degrees, which lies
    in (0°, 90°): computed in float64, with any C library for which
    [libm_facts] holds (and there are such), the entry [f_theta[0][1]]
    of two aligned turbines is NaN, which is not in [0, 1]. *)
Lemma C3_counterexample :
  (exists np, F64.libm_facts np) /\
  (forall np, F64.libm_facts np ->
     F64.get_cosine_factor_original np F64.pair_X F64.pair_Y F64.pair_R0
       (F64.NpFloat F64.angle_1em307) F64.pair_relaxation
     = Ok [[PrimFloat.zero; PrimFloat.nan];
           [PrimFloat.zero; PrimFloat.zero]]) /\
  F64.in_unit PrimFloat.nan = false.
Proof.
  split; [exact libm_facts_consistent|].
  split; [exact tiny_angle_replay|reflexivity].
Qed.

Section superposition.
Local Open Scope R_scope.

Lemma sum_zeros (l : list float64) :
  Forall (fun x => x = Fin 0) l -> NP.sum l = Fin 0.
Proof.
  unfold NP.sum. induction 1 as [|x l -> _ IH]; [done|].
  simpl. by rewrite Rplus_0_l.
Qed.

Lemma sqrt_zero : NP.sqrt (Fin 0) = Fin 0.
Proof.
  simpl. destruct (Rlt_dec 0 0); [lra|]. by rewrite sqrt_0.
Qed.

Lemma one_minus_zero_times v : ((Fin 1 - Fin 0) * v)%np = v.
Proof.
  cbn [NP.sub NP.neg NP.add].
  replace (1 + - 0) with 1 by lra.
  destruct v as [x| | |]; simpl; [by rewrite Rmult_1_l|..|done];
    unfold NP.signed_inf; repeat destruct (Rlt_dec _ _); done || lra.
Qed.

End superposition.

(** C1.  In the cosine variant the hub velocity of every target turbine
    [i] is [(1 - sqrt(sum_j loss_j)) * windSpeed], where a turbine [j]
    with [dx = X[i] - X[j] > 0] contributes
    [(2*a[j]*(f[j][i]*r[j]/(r[j]+alpha*dx))^2)^2] and every other turbine
    contributes zero; [f] is the cosine-factor matrix. *)
Theorem C1_cosine_hub_velocity self p rm :
  radius_multiplier self = PyNum rm -> accepted self p ->
  exists f_theta hubVelocity,
    f_theta_of p rm = Ok f_theta /\
    JensenCosine.solve_nonlinear self p = Ok hubVelocity /\
    length hubVelocity = nTurbines self /\
    forall i, i < nTurbines self ->
      let X := turbineXw p in
      let a := axialInduction p in
      let r := (fun d => Fin 0.5 * d)%np <$> rotorDiameter p in
      let alpha := model_params_alpha p in
      let loss j :=
        let dx := (X !!! i - X !!! j)%np in
        if (Fin 0 <? dx)%np then
          NP.square
            (Fin 2 * a !!! j
             * NP.square ((f_theta !!! j) !!! i * r !!! j
                          / (r !!! j + alpha * dx)))%np
        else Fin 0 in
      hubVelocity !! i =
        Some ((Fin 1 - NP.sqrt (NP.sum (loss <$> seq 0 (nTurbines self))))
              * wind_speed p)%np.
Proof.
  intros Hrm Hws.
  destruct (cosine_prelude self p rm Hrm Hws) as (f & _ & _ & Hf & Hcells).
  destruct (JensenCosine_solve_nonlinear_spec self p rm Hrm Hws)
    as (hv & Hhv & Hlen & Hvel).
  exists f, hv. split; [done|]. split; [done|]. split; [done|].
  intros i Hi X a r alpha loss. rewrite Hvel by done.
  unfold totalLoss_of, total_loss.
  replace (loss <$> seq 0 (nTurbines self))
    with (deficit X a r alpha (factors p rm) i <$> seq 0 (nTurbines self));
    [done|].
  apply list_fmap_ext. intros k j [Hk Hj]%lookup_seq. simpl in Hk. subst j.
  unfold deficit, loss. destruct Hws as [(HX & _) _].
  by rewrite (get2_total f k i _ (Hcells k i ltac:(lia) ltac:(lia))).
Qed.

Lemma two_turbines_accepted :
  accepted (JensenCosine.__init__ 2 0 None) two_turbines.
Proof. split; [unfold well_shaped; simpl; lia|done]. Qed.

Lemma C1_cosine_hub_velocity_witness :
  exists hubVelocity,
    JensenCosine.solve_nonlinear (JensenCosine.__init__ 2 0 None) two_turbines
      = Ok hubVelocity /\
    length hubVelocity = 2.
Proof.
  destruct (C1_cosine_hub_velocity (JensenCosine.__init__ 2 0 None)
              two_turbines (Fin 1) eq_refl two_turbines_accepted)
    as (f & hv & _ & Hhv & Hlen & _).
  exists hv. split; [exact Hhv|exact Hlen].
Defined.

(** C4.  A turbine with no upstream neighbour (no [j] with
    [X[j] < X[i]]) has [totalLoss = 0], and its output velocity is the
    freestream speed exactly. *)
Theorem C4_no_upstream_freestream self p rm i :
  radius_multiplier self = PyNum rm -> accepted self p ->
  i < nTurbines self ->
  (forall j, j < nTurbines self ->
     (turbineXw p !!! j <? turbineXw p !!! i)%np = false) ->
  exists hubVelocity,
    JensenCosine.solve_nonlinear self p = Ok hubVelocity /\
    totalLoss_of self p rm i = Fin 0 /\
    hubVelocity !! i = Some (wind_speed p).
Proof.
  intros Hrm Hws Hi Hup.
  destruct (JensenCosine_solve_nonlinear_spec self p rm Hrm Hws)
    as (hv & Hhv & Hlen & Hvel).
  assert (Hz : totalLoss_of self p rm i = Fin 0).
  { unfold totalLoss_of, total_loss. rewrite sum_zeros; [apply sqrt_zero|].
    apply Forall_fmap, Forall_forall. intros j Hj%elem_of_seq. simpl.
    unfold deficit. rewrite ltb_sub_pos, Hup by lia. done. }
  exists hv. split; [done|]. split; [done|].
  rewrite Hvel, Hz by done. by rewrite one_minus_zero_times.
Qed.

Lemma C4_no_upstream_freestream_witness :
  exists hubVelocity,
    JensenCosine.solve_nonlinear (JensenCosine.__init__ 2 0 None) two_turbines
      = Ok hubVelocity /\
    hubVelocity !! 0 = Some (Fin 8).
Proof.
  destruct (C4_no_upstream_freestream (JensenCosine.__init__ 2 0 None)
              two_turbines (Fin 1) 0 eq_refl two_turbines_accepted)
    as (hv & Hhv & _ & Hv).
  - simpl. lia.
  - intros [|[|j]] Hj; simpl in *.
    + destruct (Rlt_dec 0 0); [lra|reflexivity].
    + destruct (Rlt_dec 500 0); [lra|reflexivity].
    + lia.
  - exists hv. split; [exact Hhv|exact Hv].
Defined.

(** ** The selector *)

Lemma default_matches_no_tag lit :
  lit ∈ dispatch_tags -> Jensen.variant_is default_options lit = Ok false.
Proof.
  unfold dispatch_tags. intros Hlit.
  repeat (apply elem_of_cons in Hlit as [->|Hlit]; [by vm_compute|]).
  by apply elem_of_nil in Hlit.
Qed.

(** Without a usable ['variant'] entry the group stays empty. *)
Lemma Jensen_init_no_variant nTurbs direction_id model_options :
  (exists e, subscript model_options "variant" = Raise e) ->
  Jensen.__init__ nTurbs direction_id model_options = Ok [].
Proof.
  intros [e He]. unfold Jensen.__init__. rewrite He. rsimpl.
  cbn [try_except]. rsimpl. fold default_options.
  unfold Jensen.or_else.
  rewrite !default_matches_no_tag by (unfold dispatch_tags; set_solver).
  by rsimpl.
Qed.

(** With a ['variant'] entry the matching component is added. *)
Lemma Jensen_init_cosine :
  Jensen.__init__ 3 0 (Some {[ "variant" := PyStr "Cosine" ]}) =
  Ok [("f_1",
       JensenCosine {| nTurbines := 3; direction_id := 0;
                       radius_multiplier := PyNum (Fin 1) |})].
Proof. by vm_compute. Qed.

(** C10.  When [model_options] is [None] or has no ['variant'] key, the
    default tag is ['Tophat'], which none of the dispatch branches
    matches, and the group is built without any component. *)
Theorem C10_default_variant_adds_nothing nTurbs direction_id model_options :
  model_options = None \/
    (exists d : gmap string pyval,
       model_options = Some d /\ d !! "variant" = None) ->
  subscript default_options "variant" = Ok (PyStr "Tophat") /\
  (forall lit, lit ∈ dispatch_tags ->
     Jensen.variant_is default_options lit = Ok false) /\
  Jensen.__init__ nTurbs direction_id model_options = Ok [].
Proof.
  intros Hopt. split; [by vm_compute|]. split; [apply default_matches_no_tag|].
  apply Jensen_init_no_variant.
  destruct Hopt as [->|(d & -> & Hd)]; simpl; [by eexists|].
  rewrite Hd. by eexists.
Qed.

Lemma C10_default_variant_adds_nothing_witness :
  Jensen.__init__ 3 0 None = Ok [] /\
  Jensen.__init__ 3 0 (Some {[ "radius multiplier" := PyNum (Fin 2) ]})
    = Ok [].
Proof.
  split.
  - apply (C10_default_variant_adds_nothing 3 0 None). left. reflexivity.
  - apply (C10_default_variant_adds_nothing 3 0
             (Some {[ "radius multiplier" := PyNum (Fin 2) ]})).
    right. eexists. split; [reflexivity|]. vm_compute. reflexivity.
Defined.

(** ** Monotonicity in the relaxation factor *)

Section relaxation.
Local Open Scope R_scope.

(** For a valid bound angle the offset is [relaxationFactor * R0 * cot b],
    with [cot b > 0]. *)
Lemma wake_offset_valid ba :
  0 < ba < 90 ->
  exists c, 0 < c /\
    forall R0 k,
      wake_offset (Fin R0) (to_radians (Fin ba)) (Fin k) = Fin (k * R0 * c).
Proof.
  intros Hba. apply radians_valid in Hba.
  destruct (cot_pos _ Hba) as [Hs Hc].
  exists (sin (PI / 2 - ba * PI / 180) / sin (ba * PI / 180)). split.
  - by apply Rdiv_lt_0_compat.
  - intros R0 k. rewrite to_radians_fin, wake_offset_fin by lra.
    f_equal. unfold Rdiv. ring.
Qed.

(** The cosine factor of a pair of finite positions, by cases on the
    angle. *)
Lemma cosine_factor_fin X Y R0 ba k i j xa xb ya yb z :
  X !!! i = Fin xa -> X !!! j = Fin xb ->
  Y !!! i = Fin ya -> Y !!! j = Fin yb ->
  xa < xb -> 0 < ba ->
  wake_offset R0 (to_radians (Fin ba)) k = Fin z ->
  xb - xa + z <> 0 ->
  let b := ba * PI / 180 in
  let theta := atan ((yb - ya) / (xb - xa + z)) in
  (Rabs theta < b ->
   cosine_factor X Y R0 (Fin ba) k i j
     = Fin ((1 + cos (PI / b * theta)) / 2)) /\
  (~ Rabs theta < b -> cosine_factor X Y R0 (Fin ba) k i j = Fin 0).
Proof.
  intros HXi HXj HYi HYj Hx Hba Hz Hd b theta.
  assert (Hb : 0 < b) by (subst b; pose proof PI_RGT_0; nra).
  unfold cosine_factor. rewrite Hz.
  rewrite (wake_angle_fin X Y z i j xa xb ya yb) by done.
  rewrite HXi, HXj, (proj2 (ltb_fin xa xb) Hx).
  rewrite in_cone_abs, to_radians_fin. fold b theta. cbn [NP.abs].
  split; intros Habs.
  - rewrite (proj2 (ltb_fin _ _) Habs). unfold cosine_taper, NP.pi.
    rewrite (div_fin PI b) by lra. cbn [NP.mul NP.cos NP.add].
    apply div_fin. lra.
  - by rewrite (proj2 (ltb_fin_false _ _) Habs).
Qed.

Lemma relaxation_monotone X Y R0 ba k1 k2 i j xa xb ya yb :
  X !!! i = Fin xa -> X !!! j = Fin xb ->
  Y !!! i = Fin ya -> Y !!! j = Fin yb ->
  xa < xb -> 0 < ba < 90 -> 0 < R0 -> 0 <= k1 < k2 ->
  exists z1 z2 t1 t2 f1 f2,
    wake_offset (Fin R0) (to_radians (Fin ba)) (Fin k1) = Fin z1 /\
    wake_offset (Fin R0) (to_radians (Fin ba)) (Fin k2) = Fin z2 /\
    z1 < z2 /\
    wake_angle X Y (Fin z1) i j = Fin t1 /\
    wake_angle X Y (Fin z2) i j = Fin t2 /\
    Rabs t2 <= Rabs t1 /\
    (ya <> yb -> Rabs t2 < Rabs t1) /\
    cosine_factor X Y (Fin R0) (Fin ba) (Fin k1) i j = Fin f1 /\
    cosine_factor X Y (Fin R0) (Fin ba) (Fin k2) i j = Fin f2 /\
    f1 <= f2.
Proof.
  intros HXi HXj HYi HYj Hx Hba HR0 Hk.
  destruct (wake_offset_valid ba Hba) as (c & Hc & Hz).
  pose proof (radians_valid ba Hba) as Hb.
  set (z1 := k1 * R0 * c). set (z2 := k2 * R0 * c).
  assert (HRc : 0 < R0 * c) by by apply Rmult_lt_0_compat.
  assert (Hz1 : 0 <= z1) by (subst z1; rewrite Rmult_assoc; nra).
  assert (Hz12 : z1 < z2) by (subst z1 z2; rewrite !Rmult_assoc; nra).
  set (t1 := atan ((yb - ya) / (xb - xa + z1))).
  set (t2 := atan ((yb - ya) / (xb - xa + z2))).
  destruct (angle_narrows (yb - ya) (xb - xa + z1) (xb - xa + z2))
    as [Hle Hlt]; [lra..|]. fold t1 t2 in Hle, Hlt.
  destruct (cosine_factor_fin X Y (Fin R0) ba (Fin k1) i j xa xb ya yb z1)
    as [Hin1 Hout1]; [done|done|done|done|done|lra|apply Hz|lra|].
  destruct (cosine_factor_fin X Y (Fin R0) ba (Fin k2) i j xa xb ya yb z2)
    as [Hin2 Hout2]; [done|done|done|done|done|lra|apply Hz|lra|].
  fold t1 in Hin1, Hout1. fold t2 in Hin2, Hout2.
  set (b := ba * PI / 180) in *.
  assert (Hf : exists f1 f2,
    cosine_factor X Y (Fin R0) (Fin ba) (Fin k1) i j = Fin f1 /\
    cosine_factor X Y (Fin R0) (Fin ba) (Fin k2) i j = Fin f2 /\ f1 <= f2).
  { destruct (Rlt_dec (Rabs t1) b) as [H1|H1].
    - do 2 eexists. split; [by apply Hin1|]. split; [apply Hin2; lra|].
      pose proof PI_RGT_0. apply taper_monotone; [| done |].
      + apply Rlt_le, Rdiv_lt_0_compat; lra.
      + pose proof (Rabs_pos t1).
        replace PI with (PI / b * b) at 2 by (field; lra).
        apply Rmult_le_compat_l; [|lra].
        apply Rlt_le, Rdiv_lt_0_compat; lra.
    - destruct (cosine_factor_range X Y (Fin R0) (Fin ba) (Fin k2) i j)
        as (f2 & Hf2 & Hr).
      exists 0, f2. split; [by apply Hout1|]. split; [done|lra]. }
  destruct Hf as (f1 & f2 & Hf1 & Hf2 & Hf12).
  exists z1, z2, t1, t2, f1, f2.
  split; [apply Hz|]. split; [apply Hz|]. split; [done|].
  split; [apply wake_angle_fin; done || lra|].
  split; [apply wake_angle_fin; done || lra|].
  split; [done|]. split; [intros Hy; apply Hlt; lra|]. done.
Qed.

End relaxation.

(** C5 (as amended).  With the bound angle fixed in [tiny, 90) degrees,
    [0 < R0 <= large] and a pair with [X[i] < X[j]], raising a
    non-negative relaxation factor (up to [large]) never decreases [z],
    never increases [|theta|] and never decreases [f_theta[i][j]]. *)
Theorem C5_relaxation_monotone X Y R0 bound_angle ba k1 k2 i j xa xb ya yb :
  length X <= length Y -> i < length X -> j < length X ->
  X !!! i = Fin xa -> X !!! j = Fin xb ->
  Y !!! i = Fin ya -> Y !!! j = Fin yb ->
  scalar_value bound_angle = Fin ba ->
  (xa < xb)%R -> (tiny <= ba < 90)%R -> (0 < R0 <= large)%R ->
  (0 <= k1 < k2)%R -> (k2 <= large)%R ->
  let b := to_radians (Fin ba) in
  let z1 := wake_offset (Fin R0) b (Fin k1) in
  let z2 := wake_offset (Fin R0) b (Fin k2) in
  (z2 <? z1)%np = false /\
  (NP.abs (wake_angle X Y z1 i j) <? NP.abs (wake_angle X Y z2 i j))%np
    = false /\
  exists m1 m2 f1 f2,
    get_cosine_factor_original X Y (Fin R0) bound_angle (Fin k1) = Ok m1 /\
    get_cosine_factor_original X Y (Fin R0) bound_angle (Fin k2) = Ok m2 /\
    get2 m1 i j = Some f1 /\
    get2 m2 i j = Some f2 /\
    (f2 <? f1)%np = false.
Proof.
  intros HY Hi Hj HXi HXj HYi HYj Hv Hx Hba HR0 Hk Hk2 b z1 z2.
  assert (Hba' : (0 < ba < 90)%R) by (unfold tiny in Hba; lra).
  assert (Hba0 : bound_angle <> PyFloat (Fin 0)).
  { intros ->. injection Hv as Hv. lra. }
  destruct (relaxation_monotone X Y R0 ba k1 k2 i j xa xb ya yb)
    as (r1 & r2 & t1 & t2 & f1 & f2 & Hz1 & Hz2 & Hz & Ht1 & Ht2 & Hle & _
        & Hf1 & Hf2 & Hf); [done|done|done|done|done|done|lra|done|].
  destruct (get_cosine_factor_original_spec X Y (Fin R0) bound_angle (Fin k1)
              HY Hba0) as (m1 & Hm1 & _ & Hc1).
  destruct (get_cosine_factor_original_spec X Y (Fin R0) bound_angle (Fin k2)
              HY Hba0) as (m2 & Hm2 & _ & Hc2).
  subst b z1 z2. rewrite Hz1, Hz2, Ht1, Ht2. cbn [NP.abs].
  split; [apply ltb_fin_false; lra|]. split; [apply ltb_fin_false; lra|].
  exists m1, m2, (Fin f1), (Fin f2).
  rewrite Hc1, Hc2, Hv, Hf1, Hf2 by done.
  split_and!; try done. apply ltb_fin_false. lra.
Qed.

Lemma C5_relaxation_monotone_witness :
  (NP.abs (wake_angle [Fin 0; Fin 500] [Fin 0; Fin 30]
             (wake_offset (Fin 40) (to_radians (Fin 20)) (Fin 1)) 0 1)
   <? NP.abs (wake_angle [Fin 0; Fin 500] [Fin 0; Fin 30]
                (wake_offset (Fin 40) (to_radians (Fin 20)) (Fin 2)) 0 1))%np
    = false.
Proof.
  destruct (C5_relaxation_monotone [Fin 0; Fin 500] [Fin 0; Fin 30]
              40 (PyFloat (Fin 20)) 20 1 2 0 1 0 500 0 30)
    as (_ & Ht & _);
    [simpl; lia|simpl; lia|simpl; lia|reflexivity|reflexivity|reflexivity
    |reflexivity|reflexivity|lra|unfold tiny; lra|unfold large; lra|lra
    |unfold large; lra|].
  exact Ht.
Defined.

(** C5 as stated fails for a pair on the same lateral position
    ([Y[i] = Y[j]]): [theta] is zero for every relaxation factor, so
    raising the factor from 1 to 2 does not strictly decrease [|theta|]. *)
Lemma C5_counterexample :
  wake_angle [Fin 0; Fin 500] [Fin 0; Fin 0]
    (wake_offset (Fin 40) (to_radians (Fin 20)) (Fin 1)) 0 1 = Fin 0 /\
  wake_angle [Fin 0; Fin 500] [Fin 0; Fin 0]
    (wake_offset (Fin 40) (to_radians (Fin 20)) (Fin 2)) 0 1 = Fin 0 /\
  ~ (Rabs 0 < Rabs 0)%R.
Proof.
  destruct (wake_offset_valid 20) as (c & Hc & Hz); [lra|].
  assert (Hangle : forall k, (0 <= k)%R ->
    wake_angle [Fin 0; Fin 500] [Fin 0; Fin 0]
      (wake_offset (Fin 40) (to_radians (Fin 20)) (Fin k)) 0 1 = Fin 0).
  { intros k Hk. rewrite Hz.
    assert (0 <= k * 40 * c)%R by (rewrite Rmult_assoc; nra).
    rewrite (wake_angle_fin _ _ _ 0 1 0 500 0 0)%R by (done || lra).
    f_equal. rewrite <- atan_0. f_equal. unfold Rdiv. ring. }
  split; [apply Hangle; lra|]. split; [apply Hangle; lra|]. lra.
Qed.

(** ** Negative hub velocities *)

Section aligned.
Local Open Scope R_scope.

(** A downstream turbine on the wake axis has cosine factor 1. *)
Lemma aligned_cosine_factor X Y R0 ba k i j xa xb y :
  X !!! i = Fin xa -> X !!! j = Fin xb ->
  Y !!! i = Fin y -> Y !!! j = Fin y ->
  xa < xb -> 0 < ba < 90 -> 0 <= R0 -> 0 <= k ->
  cosine_factor X Y (Fin R0) (Fin ba) (Fin k) i j = Fin 1.
Proof.
  intros HXi HXj HYi HYj Hx Hba HR0 Hk.
  destruct (wake_offset_valid ba Hba) as (c & Hc & Hz).
  pose proof (radians_valid ba Hba) as Hb.
  assert (0 <= k * R0 * c) by (apply Rmult_le_pos; [apply Rmult_le_pos|]; lra).
  destruct (cosine_factor_fin X Y (Fin R0) ba (Fin k) i j xa xb y y
              (k * R0 * c)) as [Hin _];
    [done|done|done|done|done|lra|apply Hz|lra|].
  assert (Hq : (y - y) / (xb - xa + k * R0 * c) = 0) by (unfold Rdiv; ring).
  rewrite Hq, atan_0 in Hin. rewrite Hin by (rewrite Rabs_R0; lra).
  f_equal. rewrite Rmult_0_r, cos_0. lra.
Qed.

End aligned.

Lemma dense_pair_accepted :
  accepted (JensenCosine.__init__ 2 0 None) dense_pair.
Proof. split; [unfold well_shaped; simpl; lia|done]. Qed.

Lemma dense_pair_total_loss :
  totalLoss_of (JensenCosine.__init__ 2 0 None) dense_pair (Fin 1) 1
    = Fin (sqrt (180 / 121 * (180 / 121))).
Proof.
  unfold totalLoss_of, total_loss, deficit, factors. simpl.
  rewrite (aligned_cosine_factor _ _ _ 20 1 0 1 0 1 0)%R
    by (reflexivity || lra).
  unfold NP.sum, NP.square. simpl.
  replace (0.5 * 2 + 0.1 * (1 + - 0))%R with 1.1%R by lra.
  np_decide. simpl.
  match goal with |- context [Rlt_dec ?e 0] =>
    replace e with (180 / 121 * (180 / 121))%R by lra
  end.
  np_decide. done.
Qed.

(** C6.  The total loss is not clamped: when it exceeds 1 (and the wind
    speed is positive) the output for that turbine is the negative value
    [(1 - totalLoss) * windSpeed], returned as it is. *)
Theorem C6_total_loss_not_clamped self p rm i t V :
  radius_multiplier self = PyNum rm -> accepted self p ->
  i < nTurbines self ->
  totalLoss_of self p rm i = Fin t -> (1 < t)%R ->
  wind_speed p = Fin V -> (0 < V)%R ->
  exists hubVelocity,
    JensenCosine.solve_nonlinear self p = Ok hubVelocity /\
    hubVelocity !! i = Some (Fin ((1 - t) * V)) /\
    ((1 - t) * V < 0)%R.
Proof.
  intros Hrm Hws Hi Ht Ht1 HV HV0.
  destruct (JensenCosine_solve_nonlinear_spec self p rm Hrm Hws)
    as (hv & Hhv & _ & Hvel).
  exists hv. split; [done|]. split; [|nra].
  rewrite Hvel by done. by rewrite Ht, HV.
Qed.

Lemma C6_total_loss_not_clamped_witness :
  exists hubVelocity,
    JensenCosine.solve_nonlinear (JensenCosine.__init__ 2 0 None) dense_pair
      = Ok hubVelocity /\
    hubVelocity !! 1 = Some (Fin ((1 - sqrt (180 / 121 * (180 / 121))) * 8)) /\
    ((1 - sqrt (180 / 121 * (180 / 121))) * 8 < 0)%R.
Proof.
  apply (C6_total_loss_not_clamped (JensenCosine.__init__ 2 0 None)
           dense_pair (Fin 1) 1 (sqrt (180 / 121 * (180 / 121))) 8).
  - reflexivity.
  - exact dense_pair_accepted.
  - simpl. lia.
  - exact dense_pair_total_loss.
  - rewrite sqrt_square; lra.
  - reflexivity.
  - lra.
Defined.

(** ** A zero denominator in [theta] *)

Section degenerate.
Local Open Scope R_scope.

(** [arctan(dy / 0)]: a quarter turn with the sign of [dy], NaN for
    [0/0] and for a NaN numerator. *)
Lemma arctan_div_zero dy :
  NP.arctan (dy / Fin 0)%np =
    if (Fin 0 <? dy)%np then Fin (PI / 2)
    else if (dy <? Fin 0)%np then Fin (- (PI / 2))
    else NaN.
Proof.
  destruct dy as [y| | |]; simpl; try done.
  - destruct (Req_dec_T 0 0) as [_|Hne]; [|done]. unfold NP.signed_inf.
    destruct (Rlt_dec 0 y), (Rlt_dec y 0); done || lra.
  - destruct (Rlt_dec 0 0); [lra|done].
  - destruct (Rlt_dec 0 0); [lra|done].
Qed.

(** None of these three angles lies inside a cone of at most a quarter
    turn. *)
Lemma quarter_turn_outside b dy :
  b <= PI / 2 -> in_cone (Fin b) (NP.arctan (dy / Fin 0)%np) = false.
Proof.
  intros Hb. pose proof PI_RGT_0. rewrite arctan_div_zero, in_cone_abs.
  destruct (Fin 0 <? dy)%np; [|destruct (dy <? Fin 0)%np]; [| |done].
  - apply ltb_fin_false. rewrite Rabs_right by lra. lra.
  - apply ltb_fin_false. rewrite Rabs_left by lra. lra.
Qed.

(** For 45 degrees the offset is [relaxationFactor * R0]. *)
Lemma wake_offset_45 R0 k :
  wake_offset (Fin R0) (to_radians (Fin 45)) (Fin k) = Fin (k * R0).
Proof.
  pose proof PI_RGT_0.
  assert (Hs : 0 < sin (45 * PI / 180)) by (apply sin_gt_0; lra).
  rewrite to_radians_fin, wake_offset_fin by lra. f_equal.
  replace (PI / 2 - 45 * PI / 180) with (45 * PI / 180) by lra.
  field. lra.
Qed.

(** With a valid bound angle and non-negative [R0] and relaxation
    factor, the denominator of an upstream pair is positive: it can only
    vanish on inputs outside these ranges, which the code accepts. *)
Lemma denominator_positive (X : list float64) R0 ba k (i j : nat) xa xb :
  X !!! i = Fin xa -> X !!! j = Fin xb -> xa < xb ->
  0 < ba < 90 -> 0 <= R0 -> 0 <= k ->
  exists d, 0 < d /\
    (X !!! j - X !!! i + wake_offset (Fin R0) (to_radians (Fin ba)) (Fin k))%np
      = Fin d.
Proof.
  intros -> -> Hx Hba HR0 Hk.
  destruct (wake_offset_valid ba Hba) as (c & Hc & ->).
  assert (0 <= k * R0 * c) by (apply Rmult_le_pos; [apply Rmult_le_pos|]; lra).
  eexists. split; [|done]. lra.
Qed.

(** With a bound angle of zero the offset is infinite or NaN, so the
    denominator is not zero. *)
Lemma div_zero_not_fin a x : (a / Fin 0)%np <> Fin x.
Proof.
  destruct a as [y| | |]; simpl; try done.
  - destruct (Req_dec_T 0 0) as [_|Hn]; [|done].
    unfold NP.signed_inf. by repeat destruct (Rlt_dec _ _).
  - by destruct (Rlt_dec 0 0).
  - by destruct (Rlt_dec 0 0).
Qed.

Lemma zero_angle_denominator a R0 k x :
  (a + wake_offset R0 (to_radians (Fin 0)) k)%np <> Fin x.
Proof.
  rewrite to_radians_fin. unfold wake_offset. cbn [NP.sin].
  replace (0 * PI / 180) with 0 by lra. rewrite sin_0.
  match goal with |- context [(?n / Fin 0)%np] =>
    pose proof (div_zero_not_fin n) as Hd; destruct (n / Fin 0)%np
  end; [by destruct (Hd x0)|by destruct a..].
Qed.

End degenerate.

(** C7 (as amended).  For an upstream pair whose denominator
    [X[j] - X[i] + z] is exactly zero, the evaluation completes without
    raising; [theta] is [+pi/2] when [Y[j] > Y[i]], [-pi/2] when
    [Y[j] < Y[i]] and NaN when neither holds ([Y[j] = Y[i]] gives [0/0]);
    in each case, for a bound angle of at most [pi/2], [f_theta[i][j]]
    is zero. *)
Theorem C7_zero_denominator X Y R0 bound_angle relaxationFactor i j b :
  length X <= length Y -> i < length X -> j < length X ->
  (X !!! i <? X !!! j)%np = true ->
  to_radians (scalar_value bound_angle) = Fin b -> (b <= PI / 2)%R ->
  (X !!! j - X !!! i + wake_offset R0 (Fin b) relaxationFactor)%np = Fin 0 ->
  let dy := (Y !!! j - Y !!! i)%np in
  wake_angle X Y (wake_offset R0 (Fin b) relaxationFactor) i j =
    (if (Fin 0 <? dy)%np then Fin (PI / 2)
     else if (dy <? Fin 0)%np then Fin (- (PI / 2))
     else NaN) /\
  exists f_theta,
    get_cosine_factor_original X Y R0 bound_angle relaxationFactor
      = Ok f_theta /\
    get2 f_theta i j = Some (Fin 0).
Proof.
  intros HY Hi Hj Hup Hb Hb2 Hden dy.
  assert (Hba0 : bound_angle <> PyFloat (Fin 0)).
  { intros ->. rewrite <- Hb in Hden. by apply zero_angle_denominator in Hden. }
  split.
  - unfold wake_angle. rewrite Hden. apply arctan_div_zero.
  - destruct (get_cosine_factor_original_spec X Y R0 bound_angle
                relaxationFactor HY Hba0) as (f & Hf & _ & Hcells).
    exists f. split; [done|]. rewrite Hcells by done.
    unfold cosine_factor. rewrite Hup, Hb. unfold wake_angle.
    rewrite Hden. by rewrite quarter_turn_outside.
Qed.

Lemma C7_zero_denominator_witness :
  wake_angle [Fin 0; Fin 1] [Fin 0; Fin 1]
    (wake_offset (Fin 1) (Fin (45 * PI / 180)) (Fin (-1))) 0 1
    = Fin (PI / 2) /\
  exists f_theta,
    get_cosine_factor_original [Fin 0; Fin 1] [Fin 0; Fin 1]
      (Fin 1) (PyFloat (Fin 45)) (Fin (-1)) = Ok f_theta /\
    get2 f_theta 0 1 = Some (Fin 0).
Proof.
  pose proof (C7_zero_denominator [Fin 0; Fin 1] [Fin 0; Fin 1]
                (Fin 1) (PyFloat (Fin 45)) (Fin (-1)) 0 1 (45 * PI / 180))
    as H.
  simpl in H.
  destruct (Rlt_dec 0 1) as [_|Hn]; [|exfalso; lra].
  destruct (Rlt_dec 0 (1 + - 0)) as [_|Hn]; [|exfalso; lra].
  apply H.
  - lia.
  - lia.
  - lia.
  - reflexivity.
  - apply to_radians_fin.
  - pose proof PI_RGT_0. lra.
  - rewrite <- to_radians_fin, wake_offset_45. simpl. f_equal. lra.
Defined.

(** C7 as stated fails when the pair also has [Y[j] = Y[i]]: the quotient
    is [0/0], so [theta] is NaN rather than [±pi/2].  (The entry
    [f_theta[i][j]] is still zero, because a comparison with NaN is
    false.) *)
Lemma C7_counterexample :
  ([Fin 0; Fin 1] !!! 0 <? [Fin 0; Fin 1] !!! 1)%np = true /\
  ([Fin 0; Fin 1] !!! 1 - [Fin 0; Fin 1] !!! 0
   + wake_offset (Fin 1) (to_radians (Fin 45)) (Fin (-1)))%np = Fin 0 /\
  wake_angle [Fin 0; Fin 1] [Fin 0; Fin 0]
    (wake_offset (Fin 1) (to_radians (Fin 45)) (Fin (-1))) 0 1 = NaN.
Proof.
  rewrite wake_offset_45. unfold wake_angle. simpl.
  split; [by destruct (Rlt_dec 0 1); [|lra]|].
  replace (1 + - 0 + -1 * 1)%R with 0%R by lra. split; [done|].
  destruct (Req_dec_T 0 0) as [_|Hn]; [|done].
  unfold NP.signed_inf. replace (0 + - 0)%R with 0%R by lra.
  by destruct (Rlt_dec 0 0); [lra|].
Qed.

(** ** Bound angles outside (0°, 90°) *)

Section unvalidated.
Local Open Scope R_scope.

(** A bound angle of at most zero leaves every cone empty. *)
Lemma nonpositive_angle_empty ba theta :
  ba <= 0 -> in_cone (to_radians (Fin ba)) theta = false.
Proof.
  intros Hba. rewrite to_radians_fin.
  destruct (in_cone (Fin (ba * PI / 180)) theta) eqn:Hc; [|done].
  apply in_cone_fin in Hc as (t & _ & [Hb|(b' & [= <-] & Hb')]); [done|].
  pose proof PI_RGT_0. nra.
Qed.

Lemma nonpositive_angle_zero X Y R0 ba k i j :
  ba <= 0 -> cosine_factor X Y R0 (Fin ba) k i j = Fin 0.
Proof.
  intros Hba. unfold cosine_factor.
  rewrite nonpositive_angle_empty by done. by destruct (_ <? _)%np.
Qed.

(** At 90 degrees the offset vanishes. *)
Lemma wake_offset_90 R0 k :
  wake_offset (Fin R0) (to_radians (Fin 90)) (Fin k) = Fin 0.
Proof.
  rewrite to_radians_fin. replace (90 * PI / 180) with (PI / 2) by lra.
  rewrite wake_offset_fin by (rewrite sin_PI2; lra). f_equal.
  replace (PI / 2 - PI / 2) with 0 by lra. rewrite sin_0, sin_PI2. lra.
Qed.

(** An aligned downstream turbine still gets factor 1 at 90 degrees. *)
Lemma aligned_cosine_factor_90 X Y R0 k i j xa xb y :
  X !!! i = Fin xa -> X !!! j = Fin xb ->
  Y !!! i = Fin y -> Y !!! j = Fin y -> xa < xb ->
  cosine_factor X Y (Fin R0) (Fin 90) (Fin k) i j = Fin 1.
Proof.
  intros HXi HXj HYi HYj Hx. pose proof PI_RGT_0.
  destruct (cosine_factor_fin X Y (Fin R0) 90 (Fin k) i j xa xb y y 0)
    as [Hin _]; [done|done|done|done|done|lra|apply wake_offset_90|lra|].
  assert (Hq : (y - y) / (xb - xa + 0) = 0) by (unfold Rdiv; ring).
  rewrite Hq, atan_0 in Hin. rewrite Hin by (rewrite Rabs_R0; lra).
  f_equal. rewrite Rmult_0_r, cos_0. lra.
Qed.

End unvalidated.

(** A two by two array is determined by its four cells. *)
Lemma matrix_2x2 (m : list (list float64)) (c : nat -> nat -> float64) :
  square_shape 2 m ->
  (forall i j, i < 2 -> j < 2 -> get2 m i j = Some (c i j)) ->
  m = [[c 0 0; c 0 1]; [c 1 0; c 1 1]].
Proof.
  intros [Hlen Hrows] Hcells.
  destruct m as [|r0 [|r1 [|? ?]]]; try done.
  pose proof (Hrows 0 r0 eq_refl) as H0. pose proof (Hrows 1 r1 eq_refl) as H1.
  destruct r0 as [|a0 [|a1 [|? ?]]]; try done.
  destruct r1 as [|b0 [|b1 [|? ?]]]; try done.
  pose proof (Hcells 0 0 ltac:(lia) ltac:(lia)) as E00.
  pose proof (Hcells 0 1 ltac:(lia) ltac:(lia)) as E01.
  pose proof (Hcells 1 0 ltac:(lia) ltac:(lia)) as E10.
  pose proof (Hcells 1 1 ltac:(lia) ltac:(lia)) as E11.
  unfold get2 in *. simpl in *. congruence.
Qed.

(** C8 (as amended).  The bound angle is not validated, and nothing like
    a [DomainError] exists.  For a bound angle of at least 90 degrees, or
    of at most [-tiny] degrees, the evaluation runs the geometry loops
    and returns a matrix (given [Y] as long as [X]) whose entries are
    numbers in [0, 1], all zero for the negative angles: no NaN reaches
    the result.  At a bound angle of zero a numpy float gives the zero
    matrix, and a Python float raises [ZeroDivisionError] at
    [q = np.pi/bound_angle]. *)
Theorem C8_bound_angle_not_validated X Y R0 bound_angle relaxationFactor :
  length X <= length Y ->
  (bound_angle = PyFloat (Fin 0) ->
   get_cosine_factor_original X Y R0 bound_angle relaxationFactor
     = Raise ZeroDivisionError) /\
  (forall ba, scalar_value bound_angle = Fin ba ->
     (ba <= - tiny \/ bound_angle = NpFloat (Fin 0) \/ 90 <= ba)%R ->
     exists f_theta,
       get_cosine_factor_original X Y R0 bound_angle relaxationFactor
         = Ok f_theta /\
       (forall i j, i < length X -> j < length X ->
          exists v, get2 f_theta i j = Some (Fin v) /\ (0 <= v <= 1)%R) /\
       ((ba <= 0)%R ->
          forall i j, i < length X -> j < length X ->
            get2 f_theta i j = Some (Fin 0))).
Proof.
  intros HY. split.
  - intros ->. unfold get_cosine_factor_original. by rewrite pi_over_zero.
  - intros ba Hv Hout.
    assert (Hba0 : bound_angle <> PyFloat (Fin 0)).
    { intros ->. injection Hv as <-. unfold tiny in Hout.
      destruct Hout as [?|[?|?]]; [lra|done|lra]. }
    destruct (get_cosine_factor_original_spec X Y R0 bound_angle
                relaxationFactor HY Hba0) as (f & Hf & _ & Hcells).
    exists f. split; [done|]. split.
    + intros i j Hi Hj. rewrite Hcells by done.
      destruct (cosine_factor_range X Y R0 (scalar_value bound_angle)
                  relaxationFactor i j) as (v & -> & Hv'). by exists v.
    + intros Hba i j Hi Hj. rewrite Hcells, Hv by done.
      by rewrite nonpositive_angle_zero.
Qed.

Lemma C8_bound_angle_not_validated_witness :
  exists f_theta,
    get_cosine_factor_original [Fin 0; Fin 500] [Fin 0; Fin 0]
      (Fin 40) (NpFloat (Fin 0)) (Fin 1) = Ok f_theta /\
    get2 f_theta 0 1 = Some (Fin 0).
Proof.
  destruct (C8_bound_angle_not_validated [Fin 0; Fin 500] [Fin 0; Fin 0]
              (Fin 40) (NpFloat (Fin 0)) (Fin 1)) as [_ H].
  - simpl. lia.
  - destruct (H 0%R) as (f & Hf & _ & Hzero);
      [reflexivity|right; left; reflexivity|].
    exists f. split; [exact Hf|].
    apply Hzero; [lra|simpl; lia|simpl; lia].
Defined.

(** C8 as stated fails: with a bound angle of -20 degrees, and with one
    of 90 degrees, the evaluation returns a matrix and raises nothing. *)
Lemma C8_counterexample :
  get_cosine_factor_original [Fin 0; Fin 500] [Fin 0; Fin 0]
    (Fin 40) (PyFloat (Fin (-20))) (Fin 1)
    = Ok [[Fin 0; Fin 0]; [Fin 0; Fin 0]] /\
  get_cosine_factor_original [Fin 0; Fin 500] [Fin 0; Fin 0]
    (Fin 40) (PyFloat (Fin 90)) (Fin 1)
    = Ok [[Fin 0; Fin 1]; [Fin 0; Fin 0]].
Proof.
  split.
  - destruct (get_cosine_factor_original_spec [Fin 0; Fin 500]
                [Fin 0; Fin 0] (Fin 40) (PyFloat (Fin (-20))) (Fin 1))
      as (f & -> & Hsh & Hcells); [simpl; lia|intros [= H]; lra|].
    f_equal. apply (matrix_2x2 f (fun _ _ => Fin 0) Hsh).
    intros i j Hi Hj. rewrite Hcells by done. simpl scalar_value.
    by rewrite nonpositive_angle_zero by lra.
  - destruct (get_cosine_factor_original_spec [Fin 0; Fin 500]
                [Fin 0; Fin 0] (Fin 40) (PyFloat (Fin 90)) (Fin 1))
      as (f & -> & Hsh & Hcells); [simpl; lia|intros [= H]; lra|].
    f_equal.
    apply (matrix_2x2 f
             (fun i j => match i, j with 0, 1 => Fin 1 | _, _ => Fin 0 end) Hsh).
    intros i j Hi Hj. rewrite Hcells by done. simpl scalar_value. f_equal.
    destruct i as [|[|i]], j as [|[|j]]; try lia; simpl.
    + unfold cosine_factor. by rewrite ltb_irrefl.
    + by apply (aligned_cosine_factor_90 _ _ _ _ 0 1 0 500 0)%R; try lra.
    + unfold cosine_factor. simpl. by destruct (Rlt_dec 500 0); [lra|].
    + unfold cosine_factor. by rewrite ltb_irrefl.
Qed.

(** ** The native variant *)

Section native.
Local Open Scope R_scope.

Lemma two_turbines_total_loss :
  totalLoss_of (JensenCosine.__init__ 2 0 None) two_turbines (Fin 1) 1
    = Fin (sqrt (32 / 243 * (32 / 243))).
Proof.
  unfold totalLoss_of, total_loss, deficit, factors. simpl.
  rewrite (aligned_cosine_factor _ _ _ 20 1 0 1 0 500 0)
    by (reflexivity || lra).
  unfold NP.sum, NP.square. simpl.
  replace (0.5 * 80 + 0.1 * (500 + - 0)) with 90 by lra.
  np_decide. simpl.
  match goal with |- context [Rlt_dec ?e 0] =>
    replace e with (32 / 243 * (32 / 243)) by lra
  end.
  np_decide. done.
Qed.

Lemma two_turbines_idle_total_loss :
  totalLoss_of (JensenCosine.__init__ 2 0 None) two_turbines_idle (Fin 1) 1
    = Fin 0.
Proof.
  unfold totalLoss_of, total_loss, deficit, factors. simpl.
  rewrite (aligned_cosine_factor _ _ _ 20 1 0 1 0 500 0)
    by (reflexivity || lra).
  unfold NP.sum, NP.square. simpl.
  replace (0.5 * 80 + 0.1 * (500 + - 0)) with 90 by lra.
  np_decide. simpl.
  match goal with |- context [Rlt_dec ?e 0] => replace e with 0 by lra end.
  np_decide. by rewrite sqrt_0.
Qed.

(** The cosine variant on the reference pair: the downstream turbine
    sees [(1 - 32/243) * 8], about 6.947 m/s; with zero induction it sees
    the freestream 8 m/s. *)
Lemma two_turbines_velocity :
  exists hv,
    JensenCosine.solve_nonlinear (JensenCosine.__init__ 2 0 None) two_turbines
      = Ok hv /\
    length hv = 2%nat /\
    hv !! 1%nat = Some (Fin ((1 - 32 / 243) * 8)).
Proof.
  destruct (JensenCosine_solve_nonlinear_spec (JensenCosine.__init__ 2 0 None)
              two_turbines (Fin 1) eq_refl two_turbines_accepted)
    as (hv & Hhv & Hlen & Hvel).
  exists hv. split; [done|]. split; [done|].
  rewrite Hvel by (simpl; lia). rewrite two_turbines_total_loss.
  rewrite sqrt_square by lra. done.
Qed.

Lemma two_turbines_idle_velocity :
  exists hv,
    JensenCosine.solve_nonlinear (JensenCosine.__init__ 2 0 None)
      two_turbines_idle = Ok hv /\
    length hv = 2%nat /\
    hv !! 1%nat = Some (Fin 8).
Proof.
  destruct (JensenCosine_solve_nonlinear_spec (JensenCosine.__init__ 2 0 None)
              two_turbines_idle (Fin 1) eq_refl two_turbines_accepted)
    as (hv & Hhv & Hlen & Hvel).
  exists hv. split; [done|]. split; [done|].
  rewrite Hvel by (simpl; lia). rewrite two_turbines_idle_total_loss.
  by rewrite one_minus_zero_times.
Qed.

(** The native variant hands neither [alpha] nor the axial induction to
    the kernel: inputs that differ only there get the same result. *)
Lemma fortran_ignores_induction jensenwake self :
  JensenCosineFortran.solve_nonlinear jensenwake self two_turbines_idle =
  JensenCosineFortran.solve_nonlinear jensenwake self two_turbines.
Proof. reflexivity. Qed.

Lemma close_at tol l1 l2 (i : nat) b :
  Forall2 (close tol) l1 l2 -> l2 !! i = Some (Fin b) ->
  exists a, l1 !! i = Some a /\
    (a = Fin b \/ exists x, a = Fin x /\ Rabs (x - b) <= tol).
Proof.
  intros HF Hb.
  destruct (Forall2_lookup_r _ _ _ _ _ HF Hb) as (a & Ha & Hc).
  exists a. split; [done|].
  destruct Hc as [->|(x & y & -> & [= <-] & Hxy)]; [by left|].
  right. by exists x.
Qed.

End native.

(** C9.  No native kernel makes the CosineFortran variant agree with the
    Cosine variant on every input, even within half a metre per second:
    on the reference pair of turbines the two inputs that differ only in
    the axial induction reach the kernel as the same arguments, while
    the Cosine variant answers about 6.947 and 8. *)
Theorem C9_fortran_not_equivalent :
  ~ exists jensenwake,
      forall self p,
        numerically_equivalent 0.5
          (JensenCosineFortran.solve_nonlinear jensenwake self p)
          (JensenCosine.solve_nonlinear self p).
Proof.
  intros [jw Heq].
  pose proof (Heq (JensenCosine.__init__ 2 0 None) two_turbines) as H1.
  pose proof (Heq (JensenCosine.__init__ 2 0 None) two_turbines_idle) as H2.
  rewrite fortran_ignores_induction in H2.
  destruct two_turbines_velocity as (hv1 & E1 & _ & V1).
  destruct two_turbines_idle_velocity as (hv2 & E2 & _ & V2).
  rewrite E1 in H1. rewrite E2 in H2.
  destruct (JensenCosineFortran.solve_nonlinear jw _ two_turbines)
    as [l|e]; [|done].
  simpl in H1, H2.
  destruct (close_at _ _ _ _ _ H1 V1) as (a & Ha & Hc1).
  destruct (close_at _ _ _ _ _ H2 V2) as (a' & Ha' & Hc2).
  rewrite Ha in Ha'. injection Ha' as <-.
  assert (Hx : exists x, a = Fin x /\ (Rabs (x - (1 - 32 / 243) * 8) <= 0.5)%R).
  { destruct Hc1 as [->|?]; [|done]. eexists. split; [done|].
    rewrite Rminus_diag, Rabs_R0. lra. }
  destruct Hx as (x & -> & Hx1).
  assert (Hx2 : (Rabs (x - 8) <= 0.5)%R).
  { destruct Hc2 as [[= ->]|(x' & [= <-] & ?)]; [|done].
    rewrite Rminus_diag, Rabs_R0. lra. }
  revert Hx1 Hx2. unfold Rabs.
  destruct (Rcase_abs _), (Rcase_abs _); lra.
Qed.

(** * Further properties of the code *)

(** ** Which exceptions the loops can raise *)

Section raising.
Context {St : Type}.
Implicit Types (body : nat -> St -> result St) (s : St).

(** A loop raises only what one of its iterations raises. *)
Lemma for_in_raise_only (P : exn -> Prop) l body s e :
  (forall k s e, body k s = Raise e -> P e) ->
  for_in l body s = Raise e -> P e.
Proof.
  intros Hbody. revert s. induction l as [|i l IH]; intros s; simpl; [done|].
  destruct (body i s) as [s'|e'] eqn:Hi; simpl.
  - apply IH.
  - intros [= <-]. by eapply Hbody.
Qed.

(** An iteration that raises from every state makes the loop raise. *)
Lemma for_in_raises l body s k :
  k ∈ l -> (forall s, exists e, body k s = Raise e) ->
  exists e, for_in l body s = Raise e.
Proof.
  intros Hk Hbody. revert s. induction l as [|i l IH]; intros s.
  - by apply elem_of_nil in Hk.
  - simpl. destruct (body i s) as [s'|e'] eqn:Hi; simpl; [|by eexists].
    apply elem_of_cons in Hk as [->|Hk]; [|by apply IH].
    destruct (Hbody s) as [e He]. congruence.
Qed.

Lemma for_range_raises n body s k :
  k < n -> (forall s, exists e, body k s = Raise e) ->
  exists e, for_range n body s = Raise e.
Proof.
  intros Hk. apply for_in_raises. apply elem_of_seq. lia.
Qed.

End raising.

Lemma getitem_raise {A} (l : list A) i e :
  getitem l i = Raise e -> e = IndexError /\ length l <= i.
Proof.
  unfold getitem. destruct (l !! i) eqn:Hl; [done|].
  intros [= <-]. split; [done|]. by apply lookup_ge_None.
Qed.

Lemma getitem_ge {A} (l : list A) i :
  length l <= i -> getitem l i = Raise IndexError.
Proof. intros Hi. unfold getitem. by rewrite lookup_ge_None_2. Qed.

Lemma setitem_raise {A} (l : list A) i v e :
  setitem l i v = Raise e -> e = IndexError.
Proof. unfold setitem. case_decide; [done|]. by intros [= <-]. Qed.

Lemma setitem2_raise {A} (m : list (list A)) i j v e :
  setitem2 m i j v = Raise e -> e = IndexError.
Proof.
  unfold setitem2. destruct (getitem m i) as [row|e1] eqn:H1; rsimpl.
  - destruct (setitem row j v) as [row'|e2] eqn:H2; rsimpl.
    + apply setitem_raise.
    + intros [= <-]. by eapply setitem_raise.
  - intros [= <-]. by apply getitem_raise in H1 as [-> _].
Qed.

(** Two square arrays with the same cells are equal. *)
Lemma square_ext {A} n (m1 m2 : list (list A)) :
  square_shape n m1 -> square_shape n m2 ->
  (forall i j, i < n -> j < n -> get2 m1 i j = get2 m2 i j) ->
  m1 = m2.
Proof.
  intros [Hl1 Hr1] [Hl2 Hr2] Hcells.
  apply list_eq_same_length with n; [done..|].
  intros i r1 r2 Hi H1 H2.
  apply list_eq_same_length with n; [by eapply Hr2|by eapply Hr1|].
  intros j x y Hj Hx Hy.
  pose proof (Hcells i j Hi Hj) as Hc. unfold get2 in Hc.
  rewrite H1, H2 in Hc. simpl in Hc. congruence.
Qed.

(** ** The cosine-factor matrix, on every input *)

(** The two loops, once [q] is computed. *)
Lemma get_cosine_factor_original_reads X Y R0 bound_angle relaxationFactor :
  reads_inside X Y -> bound_angle <> PyFloat (Fin 0) ->
  exists m,
    get_cosine_factor_original X Y R0 bound_angle relaxationFactor = Ok m /\
    square_shape (length X) m /\
    forall i j, i < length X -> j < length X ->
      get2 m i j =
        Some (cosine_factor X Y R0 (scalar_value bound_angle)
                relaxationFactor i j).
Proof.
  intros HY Hba0. unfold get_cosine_factor_original.
  rewrite (pi_over_radians _ Hba0). rsimpl.
  replace (scalar_value (scalar_map (fun b => b * NP.pi / Fin 180)%np bound_angle))
    with (to_radians (scalar_value bound_angle)) by by destruct bound_angle.
  unfold reads_inside in HY. set (n := length X) in *.
  set (cf := cosine_factor X Y R0 (scalar_value bound_angle) relaxationFactor).
  set (outer := fun (k : nat) (m : list (list float64)) =>
    square_shape n m /\
    forall i j, i < n -> j < n ->
      get2 m i j = Some (if decide (i < k) then cf i j else Fin 0)).
  match goal with |- context [for_range n ?body ?s] =>
    destruct (for_range_inv outer n body s) as (m & Hm & Hsh & Hcells)
  end.
  - split; [apply zeros2_shape|]. intros i j Hi Hj.
    rewrite decide_False by lia. by apply get2_zeros2.
  - intros i m0 Hi [Hsh0 Hcells0].
    set (inner := fun (k : nat) (m : list (list float64)) =>
      square_shape n m /\
      forall i' j, i' < n -> j < n ->
        get2 m i' j =
          Some (if decide (i' < i \/ (i' = i /\ j < k)) then cf i' j else Fin 0)).
    match goal with |- context [for_range n ?body ?s] =>
      destruct (for_range_inv inner n body s) as (m & Hm & Hsh & Hcells)
    end.
    + split; [done|]. intros i' j Hi' Hj. rewrite Hcells0 by done.
      do 2 f_equal. repeat case_decide; done || lia.
    + intros j m1 Hj [Hsh1 Hcells1].
      assert (Hkeep : cf i j = Fin 0 -> inner (S j) m1).
      { intros Hz. split; [done|]. intros i' j' Hi' Hj'.
        rewrite Hcells1 by done. f_equal.
        destruct (decide (i' = i /\ j' = j)) as [[-> ->]|Hne].
        - rewrite decide_False by lia. rewrite decide_True by lia. done.
        - repeat case_decide; done || lia. }
      rewrite !(getitem_total X) by (fold n; lia). rsimpl.
      set (b := to_radians (scalar_value bound_angle)).
      set (theta := wake_angle X Y (wake_offset R0 b relaxationFactor) i j).
      assert (Hcf : cf i j =
        if (X !!! i <? X !!! j)%np then
          if in_cone b theta then cosine_taper b theta else Fin 0
        else Fin 0) by reflexivity.
      destruct (X !!! i <? X !!! j)%np eqn:Hhit; [|eauto].
      destruct (HY i j Hi Hj Hhit) as [HiY HjY].
      rewrite !(getitem_total Y) by lia. rsimpl.
      change (exists s',
        (if in_cone b theta then setitem2 m1 i j (cosine_taper b theta)
         else Ok m1) = Ok s' /\ inner (S j) s').
      destruct (in_cone b theta); [|eauto].
      destruct (setitem2_spec n m1 i j (cosine_taper b theta))
        as (m2 & Hm2 & Hsh2 & Hget2); [done..|].
      exists m2. split; [done|]. split; [done|].
      intros i' j' Hi' Hj'. rewrite Hget2.
      destruct (decide (i' = i /\ j' = j)) as [[-> ->]|Hne].
      * rewrite decide_True by lia. by rewrite Hcf.
      * rewrite Hcells1 by done. f_equal. repeat case_decide; done || lia.
    + exists m. split; [done|]. split; [done|].
      intros i' j Hi' Hj. rewrite Hcells by done. do 2 f_equal.
      repeat case_decide; done || lia.
  - exists m. split; [done|]. split; [done|].
    intros i j Hi Hj. rewrite Hcells by done. by rewrite decide_True.
Qed.

Lemma python_zero_dec (s : scalar) :
  {s = PyFloat (Fin 0)} + {s <> PyFloat (Fin 0)}.
Proof.
  destruct s as [[x| | |]|x]; try (right; discriminate).
  destruct (Req_dec_T x 0) as [->|Hx]; [by left|].
  right. intros [= H]. done.
Qed.

(** Inside the loops only an index can fail. *)
Lemma get_cosine_factor_original_raise X Y R0 bound_angle relaxationFactor e :
  get_cosine_factor_original X Y R0 bound_angle relaxationFactor = Raise e ->
  (e = ZeroDivisionError /\ bound_angle = PyFloat (Fin 0)) \/
  (e = IndexError /\ bound_angle <> PyFloat (Fin 0)).
Proof.
  unfold get_cosine_factor_original.
  destruct (pi_over _) as [q|e'] eqn:Hq; rsimpl.
  - intros Hr. right. split.
    + revert Hr. unfold for_range.
      apply (for_in_raise_only (fun e => e = IndexError)). intros i m e1.
      apply (for_in_raise_only (fun e => e = IndexError)). intros j m1 e2.
      destruct (getitem X i) as [Xi|?] eqn:H1; rsimpl;
        [|intros [= <-]; by apply getitem_raise in H1 as [-> _]].
      destruct (getitem X j) as [Xj|?] eqn:H2; rsimpl;
        [|intros [= <-]; by apply getitem_raise in H2 as [-> _]].
      destruct (Xi <? Xj)%np; [|done].
      destruct (getitem Y j) as [Yj|?] eqn:H3; rsimpl;
        [|intros [= <-]; by apply getitem_raise in H3 as [-> _]].
      destruct (getitem Y i) as [Yi|?] eqn:H4; rsimpl;
        [|intros [= <-]; by apply getitem_raise in H4 as [-> _]].
      rsimpl.
      match goal with |- context [if ?c then _ else _] => destruct c end;
        [apply setitem2_raise|done].
    + intros ->. by rewrite pi_over_zero in Hq.
  - intros [= <-]. left.
    destruct (python_zero_dec bound_angle) as [->|Hne].
    + rewrite pi_over_zero in Hq. by injection Hq as <-.
    + by rewrite pi_over_radians in Hq.
Qed.

(** A pair whose [theta] is needed but whose index is outside [Y] stops
    the evaluation. *)
Lemma get_cosine_factor_original_unread
    X Y R0 bound_angle relaxationFactor i j :
  bound_angle <> PyFloat (Fin 0) ->
  i < length X -> j < length X -> (X !!! i <? X !!! j)%np = true ->
  ~ (i < length Y /\ j < length Y) ->
  get_cosine_factor_original X Y R0 bound_angle relaxationFactor
    = Raise IndexError.
Proof.
  intros Hba0 Hi Hj Hhit Hout.
  destruct (get_cosine_factor_original X Y R0 bound_angle relaxationFactor)
    as [m|e] eqn:Hr.
  - exfalso. revert Hr. unfold get_cosine_factor_original.
    rewrite (pi_over_radians _ Hba0). rsimpl.
    match goal with |- for_range ?n ?body ?s = _ -> _ =>
      destruct (for_range_raises n body s i Hi) as [e He]; [|by rewrite He]
    end.
    intros m0.
    match goal with |- context [for_range ?n ?body ?s] =>
      destruct (for_range_raises n body s j Hj) as [e He]; [|by eexists]
    end.
    intros m1. rewrite !(getitem_total X) by lia. rsimpl. rewrite Hhit.
    destruct (decide (j < length Y)) as [HjY|HjY].
    + rewrite (getitem_total Y j) by done. rsimpl.
      rewrite (getitem_ge Y i) by lia. by eexists.
    + rewrite (getitem_ge Y j) by lia. by eexists.
  - apply get_cosine_factor_original_raise in Hr as [[_ ->]|[-> _]]; done.
Qed.

(** Returning means that every needed index was inside [Y]. *)
Lemma get_cosine_factor_original_Ok X Y R0 bound_angle relaxationFactor m :
  get_cosine_factor_original X Y R0 bound_angle relaxationFactor = Ok m ->
  bound_angle <> PyFloat (Fin 0) /\ reads_inside X Y.
Proof.
  intros Hm.
  assert (Hba0 : bound_angle <> PyFloat (Fin 0)).
  { intros ->. unfold get_cosine_factor_original in Hm.
    by rewrite pi_over_zero in Hm. }
  split; [done|]. intros i j Hi Hj Hhit.
  destruct (decide (i < length Y /\ j < length Y)) as [|Hout]; [done|].
  by rewrite (get_cosine_factor_original_unread X Y R0 bound_angle
                relaxationFactor i j) in Hm.
Qed.

(** A bound angle that [divides] is not the Python float zero. *)
Lemma divides_nonzero bound_angle :
  divides bound_angle -> bound_angle <> PyFloat (Fin 0).
Proof.
  intros Hd ->. simpl in Hd. rewrite Rabs_R0 in Hd. unfold tiny in Hd. lra.
Qed.

(** A Python float zero as bound angle is a number of magnitude below
    [tiny]. *)
Lemma python_zero_tiny bound_angle :
  bound_angle = PyFloat (Fin 0) ->
  exists x, bound_angle = PyFloat (Fin x) /\ (Rabs x < tiny)%R.
Proof.
  intros ->. exists 0%R. split; [done|]. rewrite Rabs_R0. unfold tiny. lra.
Qed.

(** X1.  For a bound angle that is a numpy float, or a Python float of
    magnitude at least [tiny], [get_cosine_factor_original] returns (an
    n by n matrix) exactly when every pair with [X[i] < X[j]] has both
    indices inside [Y]; otherwise it raises [IndexError]. *)
Theorem X1_matrix_returns_iff X Y R0 bound_angle relaxationFactor :
  divides bound_angle ->
  ((exists m,
      get_cosine_factor_original X Y R0 bound_angle relaxationFactor = Ok m /\
      square_shape (length X) m)
   <-> reads_inside X Y) /\
  (~ reads_inside X Y ->
   get_cosine_factor_original X Y R0 bound_angle relaxationFactor
     = Raise IndexError).
Proof.
  intros Hba0%divides_nonzero. split; [split|].
  - intros (m & Hm & _). by apply get_cosine_factor_original_Ok in Hm as [_ ?].
  - intros Hin.
    destruct (get_cosine_factor_original_reads X Y R0 bound_angle
                relaxationFactor Hin Hba0) as (m & Hm & Hsh & _).
    by exists m.
  - intros Hout.
    destruct (get_cosine_factor_original X Y R0 bound_angle relaxationFactor)
      as [m|e] eqn:Hr.
    + by apply get_cosine_factor_original_Ok in Hr as [_ ?].
    + apply get_cosine_factor_original_raise in Hr as [[_ ->]|[-> _]]; done.
Qed.

Lemma X1_matrix_returns_iff_witness :
  get_cosine_factor_original [Fin 0; Fin 500] [Fin 0]
    (Fin 40) (PyFloat (Fin 20)) (Fin 1) = Raise IndexError.
Proof.
  apply (X1_matrix_returns_iff [Fin 0; Fin 500] [Fin 0]
           (Fin 40) (PyFloat (Fin 20)) (Fin 1)).
  - simpl. unfold tiny. rewrite Rabs_pos_eq; lra.
  - intros Hin. destruct (Hin 0 1) as [_ H]; simpl in *; try lia.
    destruct (Rlt_dec 0 500); [done|lra].
Defined.

(** X2.  The exceptions of [get_cosine_factor_original] are
    [ZeroDivisionError], raised for the Python float 0 as bound angle and
    only for a Python float of magnitude below [tiny], and [IndexError],
    raised only when some pair with [X[i] < X[j]] has an index outside
    [Y]. *)
Theorem X2_matrix_exceptions X Y R0 bound_angle relaxationFactor :
  (bound_angle = PyFloat (Fin 0) ->
   get_cosine_factor_original X Y R0 bound_angle relaxationFactor
     = Raise ZeroDivisionError) /\
  (forall e,
     get_cosine_factor_original X Y R0 bound_angle relaxationFactor
       = Raise e ->
     (e = ZeroDivisionError /\
      exists x, bound_angle = PyFloat (Fin x) /\ (Rabs x < tiny)%R) \/
     (e = IndexError /\ ~ reads_inside X Y)).
Proof.
  split.
  - intros ->. unfold get_cosine_factor_original. by rewrite pi_over_zero.
  - intros e Hr.
    destruct (get_cosine_factor_original_raise _ _ _ _ _ _ Hr)
      as [[-> Hz]|[-> Hba0]]; [left; split; [done|by apply python_zero_tiny]|].
    right. split; [done|]. intros Hin.
    destruct (get_cosine_factor_original_reads X Y R0 bound_angle
                relaxationFactor Hin Hba0) as (m & Hm & _).
    congruence.
Qed.

Lemma X2_matrix_exceptions_witness :
  ~ reads_inside [Fin 0; Fin 500] [Fin 0].
Proof.
  destruct (X2_matrix_exceptions [Fin 0; Fin 500] [Fin 0]
              (Fin 40) (PyFloat (Fin 20)) (Fin 1)) as [_ Hexn].
  destruct (Hexn IndexError) as [[H _]|(_ & H)]; [|discriminate H|exact H].
  apply (get_cosine_factor_original_unread _ _ _ _ _ 0 1);
    [intros [= H]; lra|simpl; lia|simpl; lia| |simpl; lia].
  simpl. destruct (Rlt_dec 0 500); [reflexivity|lra].
Defined.

(** X20.  In float64 the bound [tiny] of X1 and X2 is needed: the least
    positive Python float, [5e-324], is not zero, but its conversion
    [bound_angle*np.pi/180.0] underflows to [0.0], and
    [np.pi/bound_angle] raises [ZeroDivisionError] before any array is
    read, whatever the other arguments are. *)
Theorem X20_subnormal_angle_raises np X Y R0 relaxationFactor :
  F64.get_cosine_factor_original np X Y R0
    (F64.PyFloat F64.angle_5em324) relaxationFactor
  = Raise ZeroDivisionError.
Proof. reflexivity. Qed.

(** X3.  When no turbine is strictly downstream of another (a single
    turbine, or all at the same [X]), the result is the zero matrix and
    [Y] is never read: it may even be empty. *)
Theorem X3_unordered_zero_matrix X Y R0 bound_angle relaxationFactor :
  bound_angle <> PyFloat (Fin 0) ->
  (forall i j, i < length X -> j < length X ->
     (X !!! i <? X !!! j)%np = false) ->
  get_cosine_factor_original X Y R0 bound_angle relaxationFactor
    = Ok (NP.zeros2 (length X) (length X)).
Proof.
  intros Hba0 Hflat.
  destruct (get_cosine_factor_original_reads X Y R0 bound_angle
              relaxationFactor) as (m & -> & Hsh & Hcells); [|done|].
  { intros i j Hi Hj Hhit. by rewrite Hflat in Hhit. }
  f_equal. apply (square_ext (length X)); [done|apply zeros2_shape|].
  intros i j Hi Hj. rewrite Hcells, get2_zeros2 by done.
  unfold cosine_factor. by rewrite Hflat.
Qed.

Lemma X3_unordered_zero_matrix_witness :
  get_cosine_factor_original [Fin 5; Fin 5] [] (Fin 40) (NpFloat (Fin 20)) (Fin 1)
    = Ok [[Fin 0; Fin 0]; [Fin 0; Fin 0]].
Proof.
  apply (X3_unordered_zero_matrix [Fin 5; Fin 5] [] (Fin 40)
           (NpFloat (Fin 20)) (Fin 1)).
  - discriminate.
  - intros [|[|i]] [|[|j]] Hi Hj; simpl in *; try lia;
      destruct (Rlt_dec 5 5); reflexivity || lra.
Defined.

(** ** Symmetries of the cosine factor *)

Section symmetry.
Local Open Scope R_scope.

Lemma ltb_asym a b : (a <? b)%np = true -> (b <? a)%np = false.
Proof.
  destruct a, b; simpl; try done.
  destruct (Rlt_dec x x0), (Rlt_dec x0 x); done || lra.
Qed.

Lemma signed_inf_opp x : NP.signed_inf (- x) = (- NP.signed_inf x)%np.
Proof.
  unfold NP.signed_inf.
  destruct (Rlt_dec 0 (- x)), (Rlt_dec (- x) 0), (Rlt_dec 0 x),
    (Rlt_dec x 0); simpl; done || lra.
Qed.

Lemma sub_neg a b : (- a - - b)%np = (- (a - b))%np.
Proof.
  destruct a, b; simpl; try done. f_equal. lra.
Qed.

Lemma div_neg_l a d : (- a / d)%np = (- (a / d))%np.
Proof.
  destruct a as [x| | |], d as [y| | |]; simpl; try done.
  - destruct (Req_dec_T y 0); [apply signed_inf_opp|].
    simpl. f_equal. unfold Rdiv. ring.
  - f_equal. lra.
  - f_equal. lra.
  - by destruct (Rlt_dec y 0).
  - by destruct (Rlt_dec y 0).
Qed.

Lemma arctan_neg a : NP.arctan (- a)%np = (- NP.arctan a)%np.
Proof.
  destruct a; simpl; try done.
  - by rewrite atan_opp.
  - by rewrite Ropp_involutive.
Qed.

Lemma in_cone_neg b t : in_cone b (- t)%np = in_cone b t.
Proof.
  rewrite !in_cone_abs. f_equal. destruct t; simpl; try done.
  by rewrite Rabs_Ropp.
Qed.

Lemma mul_neg_r a b : (a * - b)%np = (- (a * b))%np.
Proof.
  destruct a as [x| | |], b as [y| | |]; simpl; try done;
    try (f_equal; ring);
    unfold NP.signed_inf; repeat destruct (Rlt_dec _ _); simpl; done || lra.
Qed.

Lemma cos_neg_np a : NP.cos (- a)%np = NP.cos a.
Proof. destruct a; simpl; try done. by rewrite cos_neg. Qed.

Lemma cosine_taper_neg b t : cosine_taper b (- t)%np = cosine_taper b t.
Proof. unfold cosine_taper. by rewrite mul_neg_r, cos_neg_np. Qed.

Lemma lookup_total_neg (Y : list float64) (j : nat) :
  (NP.neg <$> Y) !!! j = (- (Y !!! j))%np.
Proof.
  destruct (decide (j < length Y)%nat) as [Hj|Hj].
  - by apply list_lookup_total_fmap.
  - rewrite !list_lookup_total_alt, list_lookup_fmap.
    rewrite lookup_ge_None_2 by lia. simpl. by rewrite Ropp_0.
Qed.

(** Reflecting the layout about the wind axis negates every [theta] and
    changes no cosine factor. *)
Lemma cosine_factor_mirror X Y R0 b k i j :
  cosine_factor X (NP.neg <$> Y) R0 b k i j = cosine_factor X Y R0 b k i j.
Proof.
  unfold cosine_factor, wake_angle.
  rewrite !lookup_total_neg, sub_neg, div_neg_l, arctan_neg.
  by rewrite in_cone_neg, cosine_taper_neg.
Qed.

End symmetry.

(** X4.  The matrix is one-sided: of the two entries [f_theta[i][j]] and
    [f_theta[j][i]] at least one is zero. *)
Theorem X4_matrix_one_sided X Y R0 bound_angle relaxationFactor :
  reads_inside X Y -> bound_angle <> PyFloat (Fin 0) ->
  exists f_theta,
    get_cosine_factor_original X Y R0 bound_angle relaxationFactor
      = Ok f_theta /\
    forall i j, i < length X -> j < length X ->
      get2 f_theta i j = Some (Fin 0) \/ get2 f_theta j i = Some (Fin 0).
Proof.
  intros Hin Hba0.
  destruct (get_cosine_factor_original_reads X Y R0 bound_angle
              relaxationFactor Hin Hba0) as (f & Hf & _ & Hcells).
  exists f. split; [done|]. intros i j Hi Hj.
  rewrite !Hcells by done. unfold cosine_factor.
  destruct (X !!! i <? X !!! j)%np eqn:Hij; [|by left].
  right. by rewrite (ltb_asym _ _ Hij).
Qed.

Lemma X4_matrix_one_sided_witness :
  exists f_theta,
    get_cosine_factor_original [Fin 0; Fin 500] [Fin 0; Fin 0]
      (Fin 40) (PyFloat (Fin 20)) (Fin 1) = Ok f_theta /\
    (get2 f_theta 0 1 = Some (Fin 0) \/ get2 f_theta 1 0 = Some (Fin 0)).
Proof.
  destruct (X4_matrix_one_sided [Fin 0; Fin 500] [Fin 0; Fin 0]
              (Fin 40) (PyFloat (Fin 20)) (Fin 1)) as (f & Hf & Hcells).
  - intros i j Hi Hj _. simpl in *. lia.
  - intros [= H]. lra.
  - exists f. split; [exact Hf|]. apply Hcells; simpl; lia.
Defined.

(** X5.  Mirroring the layout about the wind axis (negating every [Y])
    changes nothing: the same matrix is returned, or the same exception
    raised. *)
Theorem X5_matrix_mirror X Y R0 bound_angle relaxationFactor :
  get_cosine_factor_original X (NP.neg <$> Y) R0 bound_angle relaxationFactor
  = get_cosine_factor_original X Y R0 bound_angle relaxationFactor.
Proof.
  assert (Hside : reads_inside X (NP.neg <$> Y) <-> reads_inside X Y).
  { unfold reads_inside. by rewrite length_fmap. }
  destruct (get_cosine_factor_original X Y R0 bound_angle relaxationFactor)
    as [m|e] eqn:Hr.
  - destruct (get_cosine_factor_original_Ok _ _ _ _ _ _ Hr) as [Hba0 Hin].
    destruct (get_cosine_factor_original_reads X Y R0 bound_angle
                relaxationFactor Hin Hba0) as (m1 & Hm1 & Hsh1 & Hc1).
    destruct (get_cosine_factor_original_reads X (NP.neg <$> Y) R0 bound_angle
                relaxationFactor (proj2 Hside Hin) Hba0)
      as (m2 & -> & Hsh2 & Hc2).
    assert (m1 = m) as -> by congruence.
    f_equal. apply (square_ext (length X)); [done..|].
    intros i j Hi Hj. by rewrite Hc1, Hc2, cosine_factor_mirror.
  - destruct (get_cosine_factor_original X (NP.neg <$> Y) R0 bound_angle
                relaxationFactor) as [m'|e'] eqn:Hr'.
    + destruct (get_cosine_factor_original_Ok _ _ _ _ _ _ Hr') as [Hba0 Hin].
      destruct (get_cosine_factor_original_reads X Y R0 bound_angle
                  relaxationFactor (proj1 Hside Hin) Hba0) as (m1 & Hm1 & _).
      congruence.
    + apply get_cosine_factor_original_raise in Hr as [[-> Hz]|[-> Hz]];
        apply get_cosine_factor_original_raise in Hr' as [[-> Hz']|[-> Hz']];
        done.
Qed.

(** X6.  A downstream turbine exactly on the wake axis of an upstream one
    (same [Y]) gets the cosine factor 1, for every bound angle in
    [tiny, 90) degrees and [R0] and relaxation factor between 0 and
    [large]. *)
Theorem X6_on_axis_factor_one X Y R0 bound_angle ba k i j xa xb y :
  reads_inside X Y -> i < length X -> j < length X ->
  X !!! i = Fin xa -> X !!! j = Fin xb ->
  Y !!! i = Fin y -> Y !!! j = Fin y ->
  scalar_value bound_angle = Fin ba ->
  (xa < xb)%R -> (tiny <= ba < 90)%R ->
  (0 <= R0 <= large)%R -> (0 <= k <= large)%R ->
  exists f_theta,
    get_cosine_factor_original X Y (Fin R0) bound_angle (Fin k) = Ok f_theta /\
    get2 f_theta i j = Some (Fin 1).
Proof.
  intros Hin Hi Hj HXi HXj HYi HYj Hv Hx Hba HR0 Hk.
  assert (Hba' : (0 < ba < 90)%R) by (unfold tiny in Hba; lra).
  assert (Hba0 : bound_angle <> PyFloat (Fin 0)).
  { intros ->. injection Hv as Hv. lra. }
  destruct (get_cosine_factor_original_reads X Y (Fin R0) bound_angle (Fin k)
              Hin Hba0) as (f & Hf & _ & Hcells).
  exists f. split; [done|]. rewrite Hcells, Hv by done.
  f_equal. eapply aligned_cosine_factor; done || lra.
Qed.

Lemma X6_on_axis_factor_one_witness :
  exists f_theta,
    get_cosine_factor_original [Fin 0; Fin 500] [Fin 0; Fin 0]
      (Fin 40) (NpFloat (Fin 20)) (Fin 1) = Ok f_theta /\
    get2 f_theta 0 1 = Some (Fin 1).
Proof.
  apply (X6_on_axis_factor_one [Fin 0; Fin 500] [Fin 0; Fin 0] 40
           (NpFloat (Fin 20)) 20 1 0 1 0 500 0);
    try reflexivity; try (unfold tiny, large; lra); try (simpl; lia).
  intros i j Hi Hj _. simpl in *. lia.
Defined.

(** ** The cosine variant: bounds and special layouts *)

Section velocities.
Local Open Scope R_scope.

(** A finite hub velocity comes from a finite, non-negative total loss. *)
Lemma velocity_below_freestream s v u :
  ((Fin 1 - NP.sqrt s) * Fin v)%np = Fin u -> 0 <= v -> u <= v.
Proof.
  destruct s as [x| | |]; simpl.
  - destruct (Rlt_dec x 0); simpl; [done|].
    intros [= <-] Hv. pose proof (sqrt_pos x). nra.
  - unfold NP.signed_inf. by repeat destruct (Rlt_dec _ _).
  - done.
  - done.
Qed.

Lemma foldl_add_zeros (l : list float64) a :
  Forall (fun x => x = Fin 0) l -> foldl NP.add (Fin a) l = Fin a.
Proof.
  intros H. revert a. induction H as [|x l -> _ IH]; intros a; [done|].
  simpl. by rewrite Rplus_0_r.
Qed.

(** The sum of an array whose only non-zero entry is [y]. *)
Lemma foldl_add_single (l : list float64) a (j : nat) y :
  l !! j = Some (Fin y) ->
  (forall k, k <> j -> (k < length l)%nat -> l !! k = Some (Fin 0)) ->
  foldl NP.add (Fin a) l = Fin (a + y).
Proof.
  revert a j. induction l as [|x l IH]; intros a j Hj Hrest; [done|].
  destruct j as [|j]; simpl in *.
  - injection Hj as ->. simpl. apply foldl_add_zeros.
    apply Forall_lookup. intros k z Hk.
    specialize (Hrest (S k) ltac:(lia)). simpl in Hrest.
    rewrite Hrest in Hk; [congruence|].
    apply lookup_lt_Some in Hk. lia.
  - pose proof (Hrest 0%nat ltac:(lia) ltac:(lia)) as H0. simpl in H0.
    injection H0 as ->. simpl. rewrite Rplus_0_r. apply (IH a j); [done|].
    intros k Hk Hlen. apply (Hrest (S k)); lia.
Qed.

Lemma sqrt_of_square d : 0 <= d -> NP.sqrt (NP.square (Fin d)) = Fin d.
Proof.
  intros Hd. simpl. destruct (Rlt_dec (d * d) 0); [nra|].
  by rewrite sqrt_square.
Qed.

End velocities.

(** X7.  For a non-negative wind speed no turbine is reported faster than
    the freestream: every finite entry of the output is at most
    [wind_speed]. *)
Theorem X7_velocity_at_most_freestream self p rm i v :
  radius_multiplier self = PyNum rm -> accepted self p ->
  i < nTurbines self ->
  wind_speed p = Fin v -> (0 <= v)%R ->
  exists hubVelocity,
    JensenCosine.solve_nonlinear self p = Ok hubVelocity /\
    forall u, hubVelocity !! i = Some (Fin u) -> (u <= v)%R.
Proof.
  intros Hrm Hacc Hi Hv Hv0.
  destruct (JensenCosine_solve_nonlinear_spec self p rm Hrm Hacc)
    as (hv & Hhv & _ & Hvel).
  exists hv. split; [done|]. intros u. rewrite Hvel, Hv by done.
  intros [= Hu]. unfold totalLoss_of, total_loss in Hu.
  by eapply velocity_below_freestream.
Qed.

Lemma X7_velocity_at_most_freestream_witness :
  exists hubVelocity,
    JensenCosine.solve_nonlinear (JensenCosine.__init__ 2 0 None) two_turbines
      = Ok hubVelocity /\
    forall u, hubVelocity !! 1 = Some (Fin u) -> (u <= 8)%R.
Proof.
  apply (X7_velocity_at_most_freestream (JensenCosine.__init__ 2 0 None)
           two_turbines (Fin 1) 1 8).
  - reflexivity.
  - exact two_turbines_accepted.
  - simpl. lia.
  - reflexivity.
  - lra.
Defined.

(** X9.  With exactly one upstream turbine [j0], whose deficit
    [2*a*(f*r/(r+alpha*dx))^2] is zero or a number [d] between [1e-150]
    and [1e150], the total loss is [d] itself: squaring the deficit and
    taking the root of the sum cancel. *)
Theorem X9_single_upstream self p rm i j0 d :
  radius_multiplier self = PyNum rm -> accepted self p ->
  divides (model_params_spread_angle p) ->
  i < nTurbines self -> j0 < nTurbines self ->
  (turbineXw p !!! j0 <? turbineXw p !!! i)%np = true ->
  (forall j, j < nTurbines self -> j <> j0 ->
     (turbineXw p !!! j <? turbineXw p !!! i)%np = false) ->
  pair_deficit (turbineXw p) (axialInduction p) (radii p)
    (model_params_alpha p) (factors p rm) i j0 = Fin d ->
  squares_exactly d ->
  exists hubVelocity,
    JensenCosine.solve_nonlinear self p = Ok hubVelocity /\
    totalLoss_of self p rm i = Fin d /\
    hubVelocity !! i = Some ((Fin 1 - Fin d) * wind_speed p)%np.
Proof.
  intros Hrm Hacc _ Hi Hj0 Hup Hrest Hd Hsq.
  assert (Hd0 : (0 <= d)%R) by (destruct Hsq; lra).
  destruct (JensenCosine_solve_nonlinear_spec self p rm Hrm Hacc)
    as (hv & Hhv & _ & Hvel).
  assert (Ht : totalLoss_of self p rm i = Fin d).
  { unfold totalLoss_of, total_loss, NP.sum.
    rewrite (foldl_add_single _ 0%R j0 (d * d)).
    - rewrite Rplus_0_l. by apply (sqrt_of_square d).
    - rewrite list_lookup_fmap, lookup_seq_lt by done. simpl.
      unfold deficit. rewrite ltb_sub_pos, Hup.
      unfold pair_deficit in Hd. by rewrite Hd.
    - intros k Hk Hlen. rewrite length_fmap, length_seq in Hlen.
      rewrite list_lookup_fmap, lookup_seq_lt by done. simpl.
      unfold deficit. by rewrite ltb_sub_pos, Hrest. }
  exists hv. split; [done|]. split; [done|].
  by rewrite Hvel, Ht.
Qed.

Section reference_pair.
Local Open Scope R_scope.

Lemma two_turbines_pair_deficit :
  pair_deficit (turbineXw two_turbines) (axialInduction two_turbines)
    (radii two_turbines) (model_params_alpha two_turbines)
    (factors two_turbines (Fin 1)) 1 0 = Fin (32 / 243).
Proof.
  unfold pair_deficit, factors. simpl.
  rewrite (aligned_cosine_factor _ _ _ 20 1 0 1 0 500 0)
    by (reflexivity || lra).
  unfold NP.square. simpl.
  replace (0.5 * 80 + 0.1 * (500 + - 0)) with 90 by lra.
  np_decide. simpl. f_equal. lra.
Qed.

(** A turbine with zero axial induction casts no deficit, as long as the
    quotient in the formula is a finite number. *)
Lemma idle_deficit fv rv den :
  den <> 0 ->
  NP.square (Fin 2 * Fin 0 * NP.square (Fin fv * Fin rv / Fin den))%np
    = Fin 0.
Proof.
  intros Hden. unfold NP.square. simpl.
  destruct (Req_dec_T den 0); [done|]. simpl. f_equal. ring.
Qed.

End reference_pair.

Lemma X9_single_upstream_witness :
  exists hubVelocity,
    JensenCosine.solve_nonlinear (JensenCosine.__init__ 2 0 None) two_turbines
      = Ok hubVelocity /\
    totalLoss_of (JensenCosine.__init__ 2 0 None) two_turbines (Fin 1) 1
      = Fin (32 / 243).
Proof.
  destruct (X9_single_upstream (JensenCosine.__init__ 2 0 None) two_turbines
              (Fin 1) 1 0 (32 / 243)) as (hv & Hhv & Ht & _).
  - reflexivity.
  - exact two_turbines_accepted.
  - exact I.
  - simpl. lia.
  - simpl. lia.
  - simpl. destruct (Rlt_dec 0 500); [reflexivity|lra].
  - intros [|[|j]] Hj Hne; simpl in *; try lia.
    destruct (Rlt_dec 500 500); [lra|reflexivity].
  - exact two_turbines_pair_deficit.
  - right. lra.
  - exists hv. split; [exact Hhv|exact Ht].
Defined.

(** X8.  Turbines with zero axial induction cast no wake: with positions
    of magnitude at most [large], rotor diameters between [tiny] and
    [large], an expansion coefficient between 0 and [large] and a spread
    angle of at least [tiny] degrees, every turbine is reported at the
    freestream speed. *)
Theorem X8_zero_induction_freestream self p rm al ba :
  radius_multiplier self = PyNum rm -> accepted self p ->
  model_params_alpha p = Fin al -> (0 <= al <= large)%R ->
  scalar_value (model_params_spread_angle p) = Fin ba -> (tiny <= ba)%R ->
  (forall j, j < nTurbines self ->
     exists x, turbineXw p !!! j = Fin x /\ (Rabs x <= large)%R) ->
  (forall j, j < nTurbines self ->
     exists d, rotorDiameter p !!! j = Fin d /\ (tiny <= d <= large)%R) ->
  (forall j, j < nTurbines self -> axialInduction p !!! j = Fin 0) ->
  exists hubVelocity,
    JensenCosine.solve_nonlinear self p = Ok hubVelocity /\
    forall i, i < nTurbines self -> hubVelocity !! i = Some (wind_speed p).
Proof.
  intros Hrm Hacc Hal Hal0 _ _ HX HD Ha.
  destruct (JensenCosine_solve_nonlinear_spec self p rm Hrm Hacc)
    as (hv & Hhv & _ & Hvel).
  exists hv. split; [done|]. intros i Hi. rewrite Hvel by done.
  assert (Hz : totalLoss_of self p rm i = Fin 0).
  { unfold totalLoss_of, total_loss. rewrite sum_zeros; [apply sqrt_zero|].
    apply Forall_fmap, Forall_forall. intros j Hj%elem_of_seq. simpl.
    unfold deficit.
    destruct (Fin 0 <? turbineXw p !!! i - turbineXw p !!! j)%np eqn:Hdx;
      [|done].
    destruct (HX i Hi) as (xi & Hxi & _).
    destruct (HX j ltac:(lia)) as (xj & Hxj & _).
    destruct (HD j ltac:(lia)) as (d & Hd & Hd0).
    destruct (cosine_factor_range (turbineXw p) (turbineYw p)
                (radii p !!! 0%nat * rm)%np
                (scalar_value (model_params_spread_angle p))
                (model_params_relaxationFactor p) j i) as (fv & Hfv & _).
    assert (Hr : radii p !!! j = Fin (0.5 * d)).
    { unfold radii. destruct Hacc as [(_ & _ & _ & HlenD & _) _].
      etrans; [apply list_lookup_total_fmap; lia|]. by rewrite Hd. }
    rewrite Hxi, Hxj in Hdx |- *. apply ltb_fin in Hdx.
    unfold factors. rewrite Hfv, Hr, Hal, Ha by lia.
    cbn [NP.sub NP.neg NP.add NP.mul] in Hdx |- *.
    apply idle_deficit. unfold tiny in Hd0. nra. }
  rewrite Hz. by rewrite one_minus_zero_times.
Qed.

Lemma X8_zero_induction_freestream_witness :
  exists hubVelocity,
    JensenCosine.solve_nonlinear (JensenCosine.__init__ 2 0 None)
      two_turbines_idle = Ok hubVelocity /\
    hubVelocity !! 1 = Some (Fin 8).
Proof.
  destruct (X8_zero_induction_freestream (JensenCosine.__init__ 2 0 None)
              two_turbines_idle (Fin 1) 0.1 20) as (hv & Hhv & Hv).
  - reflexivity.
  - exact two_turbines_accepted.
  - reflexivity.
  - unfold large. lra.
  - reflexivity.
  - unfold tiny. lra.
  - intros [|[|j]] Hj; simpl in *; try lia; eexists; (split; [reflexivity|]);
      unfold large; rewrite Rabs_pos_eq; lra.
  - intros [|[|j]] Hj; simpl in *; try lia; exists 80%R;
      (split; [reflexivity|unfold tiny, large; lra]).
  - intros [|[|j]] Hj; simpl in *; try lia; reflexivity.
  - exists hv. split; [exact Hhv|]. apply Hv. simpl. lia.
Defined.

(** ** Exceptions of the two variants *)



(** Each statement of the two loops of [JensenCosine.solve_nonlinear]
    raises [IndexError] or nothing. *)
Ltac cosine_loops_index_only :=
  let Hr := fresh "Hr" in
  intros Hr;
  match type of Hr with (?loops ≫= _) = _ =>
    let Hloops := fresh "Hloops" in
    destruct loops eqn:Hloops; cbn [mbind result_bind rbind] in Hr; [done|];
    injection Hr as <-; revert Hloops; unfold for_range
  end;
  apply (for_in_raise_only (fun e => e = IndexError));
  intros ? [? ?] ?;
  match goal with |- (?inner ≫= _) = _ -> _ =>
    let Hinner := fresh "Hinner" in
    destruct inner eqn:Hinner; rsimpl;
      [match goal with |- (setitem ?a ?b ?c ≫= _) = _ -> _ =>
         let H := fresh "H" in
         destruct (setitem a b c) eqn:H; rsimpl;
           [done|intros [= <-]; by eapply setitem_raise]
       end
      |intros [= <-]; revert Hinner]
  end;
  apply (for_in_raise_only (fun e => e = IndexError));
  intros ? ? ?;
  repeat match goal with
  | |- (getitem ?a ?b ≫= _) = _ -> _ =>
      let H := fresh "H" in
      destruct (getitem a b) eqn:H; rsimpl;
        [|intros [= <-]; by apply getitem_raise in H as [-> _]]
  | |- (setitem ?a ?b ?c ≫= _) = _ -> _ =>
      let H := fresh "H" in
      destruct (setitem a b c) eqn:H; rsimpl;
        [|intros [= <-]; by eapply setitem_raise]
  | |- (if ?c then _ else _) = _ -> _ => destruct c; [|done]
  end;
  apply setitem_raise.



(** X11.  When [turbineXw] has fewer than [nTurbines] entries the cosine
    variant raises [IndexError] (the steps before the loops being
    passed). *)
Theorem X11_short_positions_raise self p rm :
  radius_multiplier self = PyNum rm ->
  0 < length (rotorDiameter p) ->
  model_params_spread_angle p <> PyFloat (Fin 0) ->
  reads_inside (turbineXw p) (turbineYw p) ->
  length (turbineXw p) < nTurbines self ->
  JensenCosine.solve_nonlinear self p = Raise IndexError.
Proof.
  intros Hrm HD Hba0 Hin Hshort.
  destruct (get_cosine_factor_original_reads (turbineXw p) (turbineYw p)
              (radii p !!! 0 * rm)%np (model_params_spread_angle p)
              (model_params_relaxationFactor p) Hin Hba0) as (f & Hf & _).
  unfold JensenCosine.solve_nonlinear. fold (radii p).
  rewrite (getitem_total (radii p))
    by (unfold radii; by rewrite length_fmap).
  rsimpl. rewrite Hrm. simpl mul_pyval. rsimpl. rewrite Hf. rsimpl.
  match goal with |- ?run = _ => destruct run as [hv|e] eqn:Hrun end.
  - exfalso. revert Hrun.
    match goal with |- (for_range ?n ?body ?s ≫= _) = _ -> _ =>
      destruct (for_range_raises n body s 0) as [e He];
        [lia| |by rewrite He]
    end.
    intros [loss hv0].
    match goal with |- context [for_range ?n ?body ?s] =>
      destruct (for_range_raises n body s (length (turbineXw p)))
        as [e He]; [lia| |rewrite He; by eexists]
    end.
    intros l. destruct (getitem (turbineXw p) 0) as [Xi|e]; rsimpl;
      [|by eexists].
    rewrite (getitem_ge (turbineXw p)) by lia. by eexists.
  - f_equal. revert Hrun. cosine_loops_index_only.
Qed.

Lemma X11_short_positions_raise_witness :
  JensenCosine.solve_nonlinear (JensenCosine.__init__ 3 0 None) two_turbines
    = Raise IndexError.
Proof.
  apply (X11_short_positions_raise (JensenCosine.__init__ 3 0 None)
           two_turbines (Fin 1)).
  - reflexivity.
  - simpl. lia.
  - discriminate.
  - intros i j Hi Hj _. simpl in *. lia.
  - simpl. lia.
Defined.

(** X12.  With the Python float 0 as spread angle the cosine variant
    raises [ZeroDivisionError] before any loop runs, whatever
    [nTurbines] and the other arrays are. *)
Theorem X12_cosine_zero_angle self p rm :
  radius_multiplier self = PyNum rm ->
  0 < length (rotorDiameter p) ->
  model_params_spread_angle p = PyFloat (Fin 0) ->
  JensenCosine.solve_nonlinear self p = Raise ZeroDivisionError.
Proof.
  intros Hrm HD Hba.
  unfold JensenCosine.solve_nonlinear. fold (radii p).
  rewrite (getitem_total (radii p))
    by (unfold radii; by rewrite length_fmap).
  rsimpl. rewrite Hrm. simpl mul_pyval. rsimpl. rewrite Hba.
  unfold get_cosine_factor_original. by rewrite pi_over_zero.
Qed.

Lemma X12_cosine_zero_angle_witness :
  JensenCosine.solve_nonlinear (JensenCosine.__init__ 2 0 None)
    {| turbineXw := [Fin 0; Fin 500]; turbineYw := [Fin 0; Fin 0];
       turbineZ := [Fin 0; Fin 0]; rotorDiameter := [Fin 80; Fin 80];
       model_params_alpha := Fin 0.1;
       model_params_spread_angle := PyFloat (Fin 0);
       axialInduction := [Fin (1 / 3); Fin (1 / 3)]; wind_speed := Fin 8;
       model_params_relaxationFactor := Fin 1 |}
    = Raise ZeroDivisionError.
Proof.
  apply (X12_cosine_zero_angle _ _ (Fin 1)).
  - reflexivity.
  - simpl. lia.
  - reflexivity.
Defined.

(** X13.  The native variant computes the cosine factors although the
    kernel does not take them: a failure there stops the call before the
    kernel is reached.  With the Python float 0 as spread angle it
    raises [ZeroDivisionError] for every kernel. *)
Theorem X13_fortran_zero_angle jensenwake self p rm :
  radius_multiplier self = PyNum rm ->
  0 < length (rotorDiameter p) ->
  model_params_spread_angle p = PyFloat (Fin 0) ->
  JensenCosineFortran.solve_nonlinear jensenwake self p
    = Raise ZeroDivisionError.
Proof.
  intros Hrm HD Hba.
  unfold JensenCosineFortran.solve_nonlinear. fold (radii p).
  rewrite (getitem_total (radii p))
    by (unfold radii; by rewrite length_fmap).
  rsimpl. rewrite Hrm. simpl mul_pyval. rsimpl. rewrite Hba.
  unfold get_cosine_factor_original. by rewrite pi_over_zero.
Qed.

Lemma X13_fortran_zero_angle_witness :
  JensenCosineFortran.solve_nonlinear (fun _ _ _ _ => Ok [Fin 0; Fin 0])
    (JensenCosineFortran.__init__ 2 0 None)
    {| turbineXw := [Fin 0; Fin 500]; turbineYw := [Fin 0; Fin 0];
       turbineZ := [Fin 0; Fin 0]; rotorDiameter := [Fin 80; Fin 80];
       model_params_alpha := Fin 0.1;
       model_params_spread_angle := PyFloat (Fin 0);
       axialInduction := [Fin (1 / 3); Fin (1 / 3)]; wind_speed := Fin 8;
       model_params_relaxationFactor := Fin 1 |}
    = Raise ZeroDivisionError.
Proof.
  apply (X13_fortran_zero_angle _ _ _ (Fin 1)).
  - reflexivity.
  - simpl. lia.
  - reflexivity.
Defined.

(** X14.  On inputs that pass the steps before the kernel, the native
    variant returns [(1 - loss[k]) * wind_speed] for each entry of the
    array the kernel returns, so the output has the kernel's length, not
    necessarily [nTurbines]; an exception of the kernel is passed on. *)
Theorem X14_fortran_output jensenwake self p rm :
  radius_multiplier self = PyNum rm -> accepted self p ->
  match jensenwake (turbineXw p) (turbineYw p) (rotorDiameter p)
          (model_params_relaxationFactor p) with
  | Ok loss =>
      exists hubVelocity,
        JensenCosineFortran.solve_nonlinear jensenwake self p
          = Ok hubVelocity /\
        length hubVelocity = length loss /\
        forall k l, loss !! k = Some l ->
          hubVelocity !! k = Some ((Fin 1 - l) * wind_speed p)%np
  | Raise e =>
      JensenCosineFortran.solve_nonlinear jensenwake self p = Raise e
  end.
Proof.
  intros Hrm Hacc.
  destruct (cosine_prelude self p rm Hrm Hacc) as (f & Hr0 & HR0 & Hf & _).
  unfold JensenCosineFortran.solve_nonlinear. fold (radii p).
  rewrite Hr0. rsimpl. rewrite HR0. rsimpl. rewrite Hf. rsimpl.
  destruct (jensenwake _ _ _ _) as [loss|e]; rsimpl; [|done].
  eexists. split; [done|]. split; [by rewrite length_fmap|].
  intros k l Hl. by rewrite list_lookup_fmap, Hl.
Qed.

Lemma X14_fortran_output_witness :
  exists hubVelocity,
    JensenCosineFortran.solve_nonlinear (fun _ _ _ _ => Ok [Fin 0])
      (JensenCosineFortran.__init__ 2 0 None) two_turbines
      = Ok hubVelocity /\
    length hubVelocity = 1.
Proof.
  destruct (X14_fortran_output (fun _ _ _ _ => Ok [Fin 0])
              (JensenCosineFortran.__init__ 2 0 None) two_turbines (Fin 1)
              eq_refl two_turbines_accepted) as (hv & Hhv & Hlen & _).
  exists hv. split; [exact Hhv|exact Hlen].
Defined.

(** ** The selector and the parameter helper *)

Lemma py_is_true v lit : py_is v lit = true <-> v = PyStr lit.
Proof.
  destruct v as [s|x]; simpl; [|done].
  rewrite bool_decide_eq_true. split; [by intros ->|by intros [= ->]].
Qed.

Lemma variant_is_Ok o v lit :
  subscript o "variant" = Ok v -> Jensen.variant_is o lit = Ok (py_is v lit).
Proof. intros H. unfold Jensen.variant_is. by rewrite H. Qed.

(** With a ['variant'] entry the options are kept as they are. *)
Lemma init_keeps_options o v :
  subscript o "variant" = Ok v ->
  try_except (_ ← subscript o "variant"; Ok o)
             (Ok (Some {[ "variant" := PyStr "Tophat" ]})) = Ok o.
Proof. by intros ->. Qed.

(** Unfold [Jensen.__init__] on options with the variant [v], and decide
    the tests one after the other. *)
Ltac dispatch Hv :=
  unfold Jensen.__init__, Jensen.or_else;
  rewrite (init_keeps_options _ _ Hv); rsimpl;
  rewrite !(variant_is_Ok _ _ _ Hv); rsimpl;
  repeat match goal with
  | |- context [py_is ?v ?lit] =>
      let H := fresh "Htag" in destruct (py_is v lit) eqn:H; rsimpl
  end.

(** The outcome of the dispatch on options with the variant [v]: a group
    with the one component ['f_1'], for a tag of the dispatch, or the
    empty group. *)
Lemma dispatch_cases nTurbs direction_id model_options v :
  subscript model_options "variant" = Ok v ->
  (exists c lit,
     Jensen.__init__ nTurbs direction_id model_options = Ok [("f_1", c)] /\
     lit ∈ dispatch_tags /\ v = PyStr lit /\
     (lit ∈ extension_tags \/ defined_here c)) \/
  (Jensen.__init__ nTurbs direction_id model_options = Ok [] /\
   forall lit, lit ∈ dispatch_tags -> v <> PyStr lit).
Proof.
  intros Hv.
  dispatch Hv;
    try (left; eexists _, _; split; [done|];
         split; [|split; [by eapply py_is_true|]];
         [unfold dispatch_tags; set_solver
         |first [by right | left; unfold extension_tags; set_solver]]).
  right. split; [done|]. intros lit Hlit Hvl%py_is_true.
  unfold dispatch_tags in Hlit.
  repeat (apply elem_of_cons in Hlit as [->|Hlit]; [congruence|]).
  by apply elem_of_nil in Hlit.
Qed.

(** X15.  As long as the variant is none of the seven tags whose branch
    imports from the extension module, [Jensen.__init__] raises nothing,
    whatever else the options hold; the group it builds has at most one
    component, named ['f_1'], of a class defined in this file. *)
Theorem X15_selector_total nTurbs direction_id model_options :
  (forall lit, lit ∈ extension_tags ->
     subscript model_options "variant" <> Ok (PyStr lit)) ->
  exists g,
    Jensen.__init__ nTurbs direction_id model_options = Ok g /\
    length g <= 1 /\
    forall name c, (name, c) ∈ g -> name = "f_1" /\ defined_here c.
Proof.
  intros Hext.
  destruct (subscript model_options "variant") as [v|e] eqn:Hv.
  - destruct (dispatch_cases nTurbs direction_id model_options v Hv)
      as [(c & lit & Hg & _ & -> & [Hlit|Hc])|[Hg _]].
    + by destruct (Hext lit Hlit).
    + exists [("f_1", c)]. split; [done|]. split; [simpl; lia|].
      intros name c' Hin. apply elem_of_cons in Hin as [[= -> ->]|Hin]; [done|].
      by apply elem_of_nil in Hin.
    + exists []. split; [done|]. split; [simpl; lia|].
      intros name c Hin. by apply elem_of_nil in Hin.
  - exists []. split; [by apply Jensen_init_no_variant; eexists|].
    split; [simpl; lia|]. intros name c Hin. by apply elem_of_nil in Hin.
Qed.

Lemma X15_selector_total_witness :
  exists g, Jensen.__init__ 3 0 None = Ok g /\ length g <= 1.
Proof.
  destruct (X15_selector_total 3 0 None) as (g & Hg & Hlen & _).
  - intros lit _. discriminate.
  - exists g. split; [exact Hg|exact Hlen].
Defined.

(** X16.  Given a ['variant'] entry, a component is added only when the
    entry is a string spelled as one of the ten tags of the dispatch; any
    other value (a different spelling such as ['tophat'], or a number)
    leaves the group empty without an error. *)
Theorem X16_selector_tags nTurbs direction_id model_options v :
  subscript model_options "variant" = Ok v ->
  (forall g,
     Jensen.__init__ nTurbs direction_id model_options = Ok g -> g <> [] ->
     exists lit, lit ∈ dispatch_tags /\ v = PyStr lit) /\
  ((forall lit, lit ∈ dispatch_tags -> v <> PyStr lit) ->
   Jensen.__init__ nTurbs direction_id model_options = Ok []).
Proof.
  intros Hv.
  destruct (dispatch_cases nTurbs direction_id model_options v Hv)
    as [(c & lit & Hc & Hlit & -> & _)|[Hnil Hno]].
  - split; [eauto|]. intros Hno. by destruct (Hno lit).
  - split; [|done]. intros g Hg Hne. congruence.
Qed.

Lemma X16_selector_tags_witness :
  Jensen.__init__ 3 0 (Some {[ "variant" := PyStr "tophat" ]}) = Ok [].
Proof.
  apply (X16_selector_tags 3 0 (Some {[ "variant" := PyStr "tophat" ]})
           (PyStr "tophat")).
  - vm_compute. reflexivity.
  - intros lit Hlit. unfold dispatch_tags in Hlit.
    repeat (apply elem_of_cons in Hlit as [->|Hlit]; [discriminate|]).
    apply elem_of_nil in Hlit. destruct Hlit.
Defined.

(** X17.  A [JensenCosine] component in the group [Jensen.__init__]
    returns was built for the variant ['Cosine'], from the arguments and
    the options of the group: its radius multiplier is
    [options['radius multiplier']] when that lookup succeeds, and 1.0
    otherwise. *)
Theorem X17_cosine_radius_multiplier nTurbs dir_id model_options g name c :
  Jensen.__init__ nTurbs dir_id model_options = Ok g ->
  (name, JensenCosine c) ∈ g ->
  subscript model_options "variant" = Ok (PyStr "Cosine") /\
  name = "f_1" /\
  nTurbines c = nTurbs /\
  direction_id c = dir_id /\
  radius_multiplier c =
    match subscript model_options "radius multiplier" with
    | Ok v => v
    | Raise _ => PyNum (Fin 1)
    end.
Proof.
  intros Hg Hin.
  destruct (subscript model_options "variant") as [v|e] eqn:Hv.
  - revert Hg. dispatch Hv; intros [= <-];
      try (apply elem_of_cons in Hin as [[= ]|Hin]; by apply elem_of_nil in Hin).
    + apply elem_of_cons in Hin as [[= -> ->]|Hin];
        [|by apply elem_of_nil in Hin].
      match goal with H : py_is v "Cosine" = true |- _ =>
        apply py_is_true in H as -> end.
      split; [done|]. split; [done|]. split; [done|]. split; [done|].
      simpl. by destruct (subscript model_options "radius multiplier").
    + by apply elem_of_nil in Hin.
  - rewrite Jensen_init_no_variant in Hg by by eexists.
    injection Hg as <-. by apply elem_of_nil in Hin.
Qed.

Lemma X17_cosine_radius_multiplier_witness :
  radius_multiplier
    {| nTurbines := 3; direction_id := 0;
       radius_multiplier := PyNum (Fin 2) |} =
  match subscript (Some {[ "variant" := PyStr "Cosine";
                           "radius multiplier" := PyNum (Fin 2) ]})
          "radius multiplier" with
  | Ok v => v
  | Raise _ => PyNum (Fin 1)
  end.
Proof.
  destruct (X17_cosine_radius_multiplier 3 0
              (Some {[ "variant" := PyStr "Cosine";
                       "radius multiplier" := PyNum (Fin 2) ]})
              [("f_1", JensenCosine {| nTurbines := 3; direction_id := 0;
                                       radius_multiplier := PyNum (Fin 2) |})]
              "f_1"
              {| nTurbines := 3; direction_id := 0;
                 radius_multiplier := PyNum (Fin 2) |})
    as (_ & _ & _ & _ & Hrm).
  - vm_compute. reflexivity.
  - apply elem_of_cons. left. reflexivity.
  - exact Hrm.
Defined.

(** X18.  Without a ['variant'] entry the two functions part ways:
    [Jensen.__init__] falls back to its default and returns an empty
    group, while [add_jensen_params_IndepVarComps], which has no
    [try], raises the error of the lookup ([TypeError] for [None],
    [KeyError] for a missing key), and does so after it has added the
    [alpha] variable. *)
Theorem X18_helper_needs_variant openmdao_object model_options e :
  subscript model_options "variant" = Raise e ->
  (e = TypeError \/ e = KeyError) /\
  add_jensen_params_IndepVarComps openmdao_object model_options =
    (openmdao_object
       ++ [("jp0", IndepVarComp "model_params:alpha" (Fin 2))],
     Raise e) /\
  forall nTurbs direction_id,
    Jensen.__init__ nTurbs direction_id model_options = Ok [].
Proof.
  intros He. split; [|split].
  - destruct model_options as [d|]; simpl in He.
    + destruct (d !! "variant"); [done|]. injection He as <-. by right.
    + injection He as <-. by left.
  - unfold add_jensen_params_IndepVarComps, Jensen.or_else,
      Jensen.variant_is.
    by rewrite He.
  - intros nTurbs direction_id. apply Jensen_init_no_variant. by exists e.
Qed.

Lemma X18_helper_needs_variant_witness :
  add_jensen_params_IndepVarComps [] None =
    ([("jp0", IndepVarComp "model_params:alpha" (Fin 2))], Raise TypeError).
Proof.
  apply (X18_helper_needs_variant [] None TypeError). reflexivity.
Defined.

(** The calls made for a given variant. *)
Lemma add_jensen_params_variant openmdao_object model_options v :
  subscript model_options "variant" = Ok v ->
  add_jensen_params_IndepVarComps openmdao_object model_options =
    (if py_is v "Cosine" || py_is v "CosineNoOverlap" then
       (openmdao_object
          ++ [("jp0", IndepVarComp "model_params:alpha" (Fin 2))])
         ++ [("jp1", IndepVarComp "model_params:spread_angle" (Fin 2))]
     else
       openmdao_object
         ++ [("jp0", IndepVarComp "model_params:alpha" (Fin 2))],
     Ok tt).
Proof.
  intros Hv. unfold add_jensen_params_IndepVarComps, Jensen.or_else.
  rewrite !(variant_is_Ok _ _ _ Hv). rsimpl.
  destruct (py_is v "Cosine"); rsimpl; [done|].
  by destruct (py_is v "CosineNoOverlap").
Qed.

(** X19.  ['Cosine'] is the only variant for which both functions act:
    if [add_jensen_params_IndepVarComps] makes its second call (the
    spread angle) and [Jensen.__init__] adds a component, the variant is
    ['Cosine'].  The helper's other tag, ['CosineNoOverlap'], is not a
    tag of the dispatch. *)
Theorem X19_only_cosine_gets_both
    openmdao_object model_options nTurbs direction_id g :
  length (add_jensen_params_IndepVarComps openmdao_object model_options).1
    = length openmdao_object + 2 ->
  Jensen.__init__ nTurbs direction_id model_options = Ok g -> g <> [] ->
  subscript model_options "variant" = Ok (PyStr "Cosine").
Proof.
  intros Hcalls Hg Hne.
  destruct (subscript model_options "variant") as [v|e] eqn:Hv.
  - rewrite (add_jensen_params_variant _ _ _ Hv) in Hcalls. simpl in Hcalls.
    destruct (py_is v "Cosine") eqn:Hc;
      [by apply py_is_true in Hc as ->|].
    destruct (py_is v "CosineNoOverlap") eqn:Hn; simpl in Hcalls.
    + apply py_is_true in Hn as ->. exfalso. apply Hne.
      assert (Jensen.__init__ nTurbs direction_id model_options = Ok [])
        as Hnil; [|congruence].
      clear Hg. dispatch Hv; try discriminate. done.
    + rewrite length_app in Hcalls. simpl in Hcalls. lia.
  - rewrite Jensen_init_no_variant in Hg by by eexists. congruence.
Qed.

Lemma X19_only_cosine_gets_both_witness :
  subscript (Some {[ "variant" := PyStr "Cosine" ]}) "variant"
    = Ok (PyStr "Cosine").
Proof.
  apply (X19_only_cosine_gets_both [] (Some {[ "variant" := PyStr "Cosine" ]})
           3 0 [("f_1",
                 JensenCosine {| nTurbines := 3; direction_id := 0;
                                 radius_multiplier := PyNum (Fin 1) |})]).
  - vm_compute. reflexivity.
  - exact Jensen_init_cosine.
  - discriminate.
Defined.
